(** * Multisig signing ceremony: session managers, RPC routes, identity
      creation command and block-header serde

    A shallow embedding of the TypeScript sources:
    - the signing session managers (relayed and interactive transports),
    - the [wallet/multisig/createParticipant] and
      [wallet/multisig/createSignatureShare] RPC routes,
    - the [MultisigIdentityCreate] command,
    - [BlockHeader], [BlockHeader.equals] and [BlockHeaderSerde].

    Asynchronous code is modelled by explicit state passing: a computation
    takes a world (the operator's replies, the events the relay delivers
    while the code sleeps, the effects performed so far) and gives back an
    outcome and the world after it.  JavaScript numbers that hold counts
    are integers of [Z]; [bigint] is [Z]; a [Buffer] is a list of bytes. *)

From Stdlib Require Import ZArith List String Ascii Bool Lia.
From Stdlib Require Import Strings.Byte DecimalString DecimalZ.
Import ListNotations.

Local Open Scope string_scope.
Local Open Scope list_scope.

(* ===================================================================== *)
(** ** JavaScript values used by the sources                              *)
(* ===================================================================== *)

Module Js.

(** A Node [Buffer]. *)
Definition Buffer := list byte.

(** The line feed of the template literals. *)
Definition nl : string := String (ascii_of_nat 10) EmptyString.

(** Truthiness of a string: only the empty string is falsy. *)
Definition truthy (s : string) : bool :=
  match s with
  | EmptyString => false
  | String _ _ => true
  end.

(** Truthiness of [string | undefined]. *)
Definition truthy_opt (o : option string) : bool :=
  match o with
  | Some s => truthy s
  | None => false
  end.

(** [n.toString()] for a bigint, or for a number that holds a safe
    integer: decimal digits, with a leading minus sign for negative
    values. *)
Definition toString (z : Z) : string :=
  NilZero.string_of_int (Z.to_int z).

(** [BigInt(s)] on the strings the sources meet: the empty string is
    zero, and decimal digits with an optional minus sign are their value;
    [None] stands for the [SyntaxError] of any other string. *)
Definition BigInt (s : string) : option Z :=
  match s with
  | EmptyString => Some 0%Z
  | _ => option_map Z.of_int (NilZero.int_of_string s)
  end.

Definition hexdigit (n : N) : ascii :=
  match n with
  | 0%N => "0" | 1%N => "1" | 2%N => "2" | 3%N => "3"
  | 4%N => "4" | 5%N => "5" | 6%N => "6" | 7%N => "7"
  | 8%N => "8" | 9%N => "9" | 10%N => "a" | 11%N => "b"
  | 12%N => "c" | 13%N => "d" | 14%N => "e" | _ => "f"
  end%char.

(** Value of a hexadecimal digit, in either case. *)
Definition hexval (c : ascii) : option N :=
  let n := N_of_ascii c in
  if ((48 <=? n) && (n <=? 57))%N then Some (n - 48)%N
  else if ((97 <=? n) && (n <=? 102))%N then Some (n - 87)%N
  else if ((65 <=? n) && (n <=? 70))%N then Some (n - 55)%N
  else None.

Definition byte_of_N (n : N) : byte :=
  match Byte.of_N (n mod 256) with
  | Some b => b
  | None => x00
  end.

(** [buf.toString('hex')]: two lower-case digits per byte. *)
Fixpoint toString_hex (b : Buffer) : string :=
  match b with
  | [] => EmptyString
  | x :: rest =>
      let n := Byte.to_N x in
      String (hexdigit (n / 16)) (String (hexdigit (n mod 16)) (toString_hex rest))
  end.

(** [Buffer.from(s, 'hex')]: decodes pairs of digits and stops at the
    first pair that is not hexadecimal; a trailing single digit is
    dropped. *)
Fixpoint Buffer_from_hex (s : string) : Buffer :=
  match s with
  | String a (String b rest) =>
      match hexval a, hexval b with
      | Some h, Some l => byte_of_N (16 * h + l) :: Buffer_from_hex rest
      | _, _ => []
      end
  | _ => []
  end.

(** A well-formed hexadecimal string: lower-case digits, two per byte. *)
Definition is_lower_hex_digit (c : ascii) : bool :=
  let n := N_of_ascii c in
  (((48 <=? n) && (n <=? 57)) || ((97 <=? n) && (n <=? 102)))%N.

Fixpoint all_chars (p : ascii -> bool) (s : string) : bool :=
  match s with
  | EmptyString => true
  | String c rest => p c && all_chars p rest
  end.

Definition is_hex (s : string) : bool :=
  all_chars is_lower_hex_digit s && Nat.even (String.length s).

End Js.

(* ===================================================================== *)
(** ** Outcomes and the state-passing monad                               *)
(* ===================================================================== *)

(** What the sources throw. *)
Inductive Error :=
| JsError (message : string)
    (** [throw Error(message)], a failed assertion *)
| RpcValidationError (message : string)
    (** raised on the node by the RPC layer *)
| DuplicateAccountNameError (name : string)
    (** raised on the node by the wallet *)
| RpcRequestError (code : string) (codeMessage : string)
    (** what an RPC client sees when the node answers with an error *)
| NativeError (message : string).
    (** thrown by the [@ironfish/rust-nodejs] bindings *)

(** An awaited computation returns, throws, or never settles. *)
Inductive Outcome (A : Type) :=
| Returns (a : A)
| Throws (e : Error)
| Hangs.

Arguments Returns {A} a.
Arguments Throws {A} e.
Arguments Hangs {A}.

Definition M (W A : Type) : Type := W -> Outcome A * W.

Definition ret {W A} (a : A) : M W A := fun w => (Returns a, w).

Definition bind {W A B} (m : M W A) (k : A -> M W B) : M W B :=
  fun w =>
    match m w with
    | (Returns a, w') => k a w'
    | (Throws e, w') => (Throws e, w')
    | (Hangs, w') => (Hangs, w')
    end.

Definition throw {W A} (e : Error) : M W A := fun w => (Throws e, w).

Definition hang {W A} : M W A := fun w => (Hangs, w).

Definition gets {W A} (f : W -> A) : M W A := fun w => (Returns (f w), w).

Definition modify {W} (f : W -> W) : M W unit := fun w => (Returns tt, f w).

(** [try { m } catch (e) { h e }] *)
Definition try_catch {W A} (m : M W A) (h : Error -> M W A) : M W A :=
  fun w =>
    match m w with
    | (Throws e, w') => h e w'
    | r => r
    end.

Declare Scope eff_scope.
Delimit Scope eff_scope with eff.

Notation "x <- m ;; k" := (bind m (fun x => k))
  (at level 100, m at next level, right associativity) : eff_scope.
Notation "' pat <- m ;; k" := (bind m (fun x => match x with pat => k end))
  (at level 100, pat pattern, m at next level, right associativity) : eff_scope.
Notation "m ;; k" := (bind m (fun _ => k))
  (at level 100, right associativity) : eff_scope.

Local Open Scope eff_scope.

(** [while (cond(s)) { s = await body(s) }].  The fuel bounds the number
    of iterations; the callers give one more than the number of inputs
    the environment still holds, and every iteration that does not leave
    the loop consumes one, so running out of fuel is a loop that spins
    forever on an environment that has gone silent. *)
Fixpoint while_ {W S} (fuel : nat) (cond : S -> bool) (body : S -> M W S)
    (s : S) : M W S :=
  if cond s then
    match fuel with
    | O => hang
    | Datatypes.S fuel' => s' <- body s ;; while_ fuel' cond body s'
    end
  else ret s.

(* ===================================================================== *)
(** ** The native bindings                                                *)
(* ===================================================================== *)

Module Native.

(** [@ironfish/rust-nodejs] is an external library: what the sources use
    of it is an interface, and every definition below is parametric in
    an implementation.  The constructor and [createSignatureShare] may
    throw. *)
Class Library := {
  UnsignedTransaction : Type;
  UnsignedTransaction_new : Js.Buffer -> Error + UnsignedTransaction;
  hash : UnsignedTransaction -> Js.Buffer;
  publicKeyRandomness : UnsignedTransaction -> string;
  createSignatureShare :
    string -> string -> string -> Js.Buffer -> string -> list string ->
    Error + string
}.

End Native.

(** [new UnsignedTransaction(buffer)] inside a computation. *)
Definition new_UnsignedTransaction {native : Native.Library} {W}
    (b : Js.Buffer) : M W Native.UnsignedTransaction :=
  match Native.UnsignedTransaction_new b with
  | inl e => throw e
  | inr u => ret u
  end.

(* ===================================================================== *)
(** ** Signing session managers                                           *)
(* ===================================================================== *)

Module Session.

(** The payload of a signing status event, as far as the managers read
    it. *)
Record SigningStatus := {
  msg_numSigners : Z;
  msg_unsignedTransaction : string;
  msg_identities : list string;
  msg_signingCommitments : list string;
  msg_signatureShares : list string
}.

(** Effects a manager performs, in the order it performs them. *)
Inductive Event :=
| LoggerInfo (line : string)
| UxActionStart (label : string)
| UxActionStatus (have : nat) (want : Z)
| UxActionStop
| LongPrompt (label : string)
| InputNumberPrompt (label : string)
| Connect
| JoinSession (id : string)
| WaitForJoinedSession
| StartSigningSession (numSigners : Z) (unsignedTransaction : string)
| SubmitSigningIdentity (identity : string)
| SubmitSigningCommitment (signingCommitment : string)
| SubmitSignatureShare (signatureShare : string)
| GetSigningStatus
| OnSigningStatusOn
| OnSigningStatusClear
| Sleep (ms : Z)
| SigningStatusEvent (message : SigningStatus).

(** The manager's field [sessionId], what the relay client exposes, and
    the environment: the operator's replies to the text prompts and to
    the number prompts, and for each successive sleep the status events
    the relay delivers during it (none once the list is exhausted). *)
Record World := {
  sessionId : option string;
  client_sessionId : option string;
  client_connectionString : string;
  answers : list string;
  numbers : list Z;
  schedule : list (list SigningStatus);
  trace : list Event
}.

Definition set_sessionId (v : option string) (w : World) : World :=
  {| sessionId := v;
     client_sessionId := client_sessionId w;
     client_connectionString := client_connectionString w;
     answers := answers w; numbers := numbers w;
     schedule := schedule w; trace := trace w |}.

Definition set_answers (v : list string) (w : World) : World :=
  {| sessionId := sessionId w;
     client_sessionId := client_sessionId w;
     client_connectionString := client_connectionString w;
     answers := v; numbers := numbers w;
     schedule := schedule w; trace := trace w |}.

Definition set_numbers (v : list Z) (w : World) : World :=
  {| sessionId := sessionId w;
     client_sessionId := client_sessionId w;
     client_connectionString := client_connectionString w;
     answers := answers w; numbers := v;
     schedule := schedule w; trace := trace w |}.

Definition set_schedule (v : list (list SigningStatus)) (w : World) : World :=
  {| sessionId := sessionId w;
     client_sessionId := client_sessionId w;
     client_connectionString := client_connectionString w;
     answers := answers w; numbers := numbers w;
     schedule := v; trace := trace w |}.

Definition log (es : list Event) (w : World) : World :=
  {| sessionId := sessionId w;
     client_sessionId := client_sessionId w;
     client_connectionString := client_connectionString w;
     answers := answers w; numbers := numbers w;
     schedule := schedule w; trace := trace w ++ es |}.

Definition emit (e : Event) : M World unit := modify (log [e]).

(** Modelled from the spec: [ui.longPrompt(label, { required: true })]
    is not part of the sources at hand.  The spec has a prompt suspend
    until the operator's input arrives, with no time bound, and the value
    typed used as it is: the result is the operator's next reply, and the
    prompt never settles when the operator has stopped answering. *)
Definition longPrompt (label : string) : M World string :=
  emit (LongPrompt label) ;;
  fun w =>
    match answers w with
    | [] => (Hangs, w)
    | a :: rest => (Returns a, set_answers rest w)
    end.

(** Modelled from the spec: [ui.inputNumberPrompt(logger, label,
    { required: true, integer: true })] is not part of the sources at
    hand; it is the prompt above for an integer. *)
Definition inputNumberPrompt (label : string) : M World Z :=
  emit (InputNumberPrompt label) ;;
  fun w =>
    match numbers w with
    | [] => (Hangs, w)
    | n :: rest => (Returns n, set_numbers rest w)
    end.

(** Modelled from the spec: [PromiseUtils.sleep(ms)] and the event
    emitter [client.onSigningStatus] are not part of the sources at hand.
    The spec has a status request answered by an asynchronous status
    event delivered to the subscribed callback; the caller runs to
    completion between two suspension points, so the events that arrive
    are dispatched while it sleeps, in order.  The result is the list of
    messages dispatched during this sleep. *)
Definition sleep (ms : Z) : M World (list SigningStatus) :=
  emit (Sleep ms) ;;
  batch <- (fun w =>
              match schedule w with
              | [] => (Returns [], w)
              | b :: rest => (Returns b, set_schedule rest w)
              end) ;;
  modify (log (map SigningStatusEvent batch)) ;;
  ret batch.

(** One more than the number of sleeps during which events still
    arrive. *)
Definition poll_fuel : M World nat :=
  gets (fun w => S (List.length (schedule w))).

Record Options := {
  opt_numSigners : option Z;
  opt_unsignedTransaction : option string
}.

(** [inputSigningConfig] *)
Definition inputSigningConfig (options : Options) : M World (Z * string) :=
  unsignedTransaction <-
    match opt_unsignedTransaction options with
    | Some t => ret t
    | None => longPrompt "Enter the unsigned transaction"
    end ;;
  numSigners <-
    match opt_numSigners options with
    | Some n => ret n
    | None =>
        inputNumberPrompt
          "Enter the number of participants in signing this transaction"
    end ;;
  if (numSigners <? 2)%Z
  then throw (JsError "Minimum number of participants must be at least 2")
  else ret (numSigners, unsignedTransaction).

(** What [startSession] resolves to. *)
Record Config {native : Native.Library} := {
  numSigners : Z;
  unsignedTransaction : Native.UnsignedTransaction
}.

(** Modelled from the spec: [connect], [joinSession] and
    [waitForJoinedSession] belong to the base class
    [MultisigClientSessionManager], which is not part of the sources at
    hand.  The spec describes them as the network connection to the relay
    and as joining an existing session; each is an interaction with the
    relay, recorded as such. *)
Definition connect : M World unit := emit Connect.

Definition joinSession (id : string) : M World unit := emit (JoinSession id).

Definition waitForJoinedSession : M World unit := emit WaitForJoinedSession.

(** Modelled from the spec: [ui.collectStrings] is not part of the sources
    at hand.  The spec has it prompt for exactly [count] peer-supplied
    strings, one at a time, each accepted as it is typed, with no
    deduplication, and has the local contribution (the additional
    strings) occupy the first position of the result. *)
Fixpoint promptEach (item : string) (count : nat) : M World (list string) :=
  match count with
  | O => ret []
  | S k =>
      s <- longPrompt item ;;
      rest <- promptEach item k ;;
      ret (s :: rest)
  end.

Definition collectStrings (item : string) (count : Z)
    (additionalStrings : list string) : M World (list string) :=
  typed <- promptEach item (Z.to_nat count) ;;
  ret (additionalStrings ++ typed).

End Session.

(** *** Relayed transport *)

Module MultisigClientSigningSessionManager.
Import Session.

Section WithNative.
Context {native : Native.Library}.

(** The template literal renders a missing session id as [null]. *)
Definition show_sessionId (sid : option string) : string :=
  match sid with
  | Some s => s
  | None => "null"
  end.

(** [getSessionConfig]: the loop state is the triple of local variables
    [numSigners], [unsignedTransactionHex], [waiting]; the subscribed
    callback overwrites it at every status event. *)
Definition getSessionConfig : M World Config :=
  emit OnSigningStatusOn ;;
  emit (UxActionStart "Waiting for signer config from server") ;;
  fuel <- poll_fuel ;;
  '(numSigners, unsignedTransactionHex, _) <-
    while_ fuel
      (fun '(_, _, waiting) => waiting)
      (fun st =>
         emit GetSigningStatus ;;
         batch <- sleep 3000 ;;
         ret (fold_left
                (fun _ message =>
                   (msg_numSigners message,
                    msg_unsignedTransaction message,
                    false))
                batch st))
      (0%Z, EmptyString, true) ;;
  emit OnSigningStatusClear ;;
  emit UxActionStop ;;
  unsignedTransaction <-
    new_UnsignedTransaction (Js.Buffer_from_hex unsignedTransactionHex) ;;
  ret {| numSigners := numSigners;
         unsignedTransaction := unsignedTransaction |}.

(** [startSession]: [rest] is the code after the early return of the
    branch taken when [this.sessionId] is truthy. *)
Definition startSession (options : Options) : M World Config :=
  sid <- gets sessionId ;;
  let rest : M World Config :=
    '(numSigners, unsignedTransaction) <- inputSigningConfig options ;;
    connect ;;
    emit (StartSigningSession numSigners unsignedTransaction) ;;
    fresh <- gets client_sessionId ;;
    modify (set_sessionId fresh) ;;
    emit (LoggerInfo
            (Js.nl ++ "Starting new signing session: "
               ++ show_sessionId fresh ++ Js.nl)) ;;
    waitForJoinedSession ;;
    emit (LoggerInfo (Js.nl ++ "Signing session connection string:")) ;;
    cs <- gets client_connectionString ;;
    emit (LoggerInfo cs) ;;
    tx <- new_UnsignedTransaction (Js.Buffer_from_hex unsignedTransaction) ;;
    ret {| numSigners := numSigners; unsignedTransaction := tx |}
  in
  match sid with
  | Some id =>
      if Js.truthy id then
        joinSession id ;;
        getSessionConfig
      else rest
  | None => rest
  end.

End WithNative.

(** [getIdentities]: the loop state is the local variable [identities];
    the subscribed callback overwrites it at every status event. *)
Definition getIdentities (identity : string) (numSigners : Z)
    : M World (list string) :=
  emit (SubmitSigningIdentity identity) ;;
  emit OnSigningStatusOn ;;
  emit (UxActionStart "Waiting for Identities from server") ;;
  fuel <- poll_fuel ;;
  identities <-
    while_ fuel
      (fun identities => (Z.of_nat (List.length identities) <? numSigners)%Z)
      (fun identities =>
         emit GetSigningStatus ;;
         emit (UxActionStatus (List.length identities) numSigners) ;;
         batch <- sleep 3000 ;;
         ret (fold_left (fun _ message => msg_identities message)
                batch identities))
      [identity] ;;
  emit OnSigningStatusClear ;;
  emit UxActionStop ;;
  ret identities.

(** [getSigningCommitments] *)
Definition getSigningCommitments (signingCommitment : string) (numSigners : Z)
    : M World (list string) :=
  emit (SubmitSigningCommitment signingCommitment) ;;
  emit OnSigningStatusOn ;;
  emit (UxActionStart "Waiting for Signing Commitments from server") ;;
  fuel <- poll_fuel ;;
  signingCommitments <-
    while_ fuel
      (fun signingCommitments =>
         (Z.of_nat (List.length signingCommitments) <? numSigners)%Z)
      (fun signingCommitments =>
         emit GetSigningStatus ;;
         emit (UxActionStatus (List.length signingCommitments) numSigners) ;;
         batch <- sleep 3000 ;;
         ret (fold_left (fun _ message => msg_signingCommitments message)
                batch signingCommitments))
      [signingCommitment] ;;
  emit OnSigningStatusClear ;;
  emit UxActionStop ;;
  ret signingCommitments.

(** [getSignatureShares] *)
Definition getSignatureShares (signatureShare : string) (numSigners : Z)
    : M World (list string) :=
  emit (SubmitSignatureShare signatureShare) ;;
  emit OnSigningStatusOn ;;
  emit (UxActionStart "Waiting for Signature Shares from server") ;;
  fuel <- poll_fuel ;;
  signatureShares <-
    while_ fuel
      (fun signatureShares =>
         (Z.of_nat (List.length signatureShares) <? numSigners)%Z)
      (fun signatureShares =>
         emit GetSigningStatus ;;
         emit (UxActionStatus (List.length signatureShares) numSigners) ;;
         batch <- sleep 3000 ;;
         ret (fold_left (fun _ message => msg_signatureShares message)
                batch signatureShares))
      [signatureShare] ;;
  emit OnSigningStatusClear ;;
  emit UxActionStop ;;
  ret signatureShares.

End MultisigClientSigningSessionManager.

(** *** Interactive transport *)

Module MultisigSigningSessionManager.
Import Session.

Section WithNative.
Context {native : Native.Library}.

(** [startSession] *)
Definition startSession (options : Options) : M World Config :=
  '(numSigners, unsignedTransaction) <- inputSigningConfig options ;;
  tx <- new_UnsignedTransaction (Js.Buffer_from_hex unsignedTransaction) ;;
  ret {| numSigners := numSigners; unsignedTransaction := tx |}.

End WithNative.

(** [endSession] *)
Definition endSession : M World unit := ret tt.

Definition rule : string := Js.nl ++ "============================================".

(** [getIdentities] *)
Definition getIdentities (accountName identity : string) (numSigners : Z)
    : M World (list string) :=
  emit (LoggerInfo
          ("Identity for " ++ accountName ++ ": " ++ Js.nl
             ++ identity ++ " " ++ Js.nl)) ;;
  emit (LoggerInfo "Share your participant identity with other signers.") ;;
  emit (LoggerInfo
          ("Enter " ++ Js.toString (numSigners - 1)
             ++ " identities of the participants (excluding your own)")) ;;
  collectStrings "Participant Identity" (numSigners - 1) [identity].

(** [getSigningCommitments] *)
Definition getSigningCommitments (signingCommitment : string) (numSigners : Z)
    : M World (list string) :=
  emit (LoggerInfo rule) ;;
  emit (LoggerInfo (Js.nl ++ "Commitment:")) ;;
  emit (LoggerInfo signingCommitment) ;;
  emit (LoggerInfo rule) ;;
  emit (LoggerInfo (Js.nl ++ "Share your commitment with other participants.")) ;;
  emit (LoggerInfo
          ("Enter " ++ Js.toString (numSigners - 1)
             ++ " commitments of the participants (excluding your own)")) ;;
  collectStrings "Commitment" (numSigners - 1) [signingCommitment].

(** [getSignatureShares] *)
Definition getSignatureShares (signatureShare : string) (numSigners : Z)
    : M World (list string) :=
  emit (LoggerInfo rule) ;;
  emit (LoggerInfo (Js.nl ++ "Signature Share:")) ;;
  emit (LoggerInfo signatureShare) ;;
  emit (LoggerInfo rule) ;;
  emit (LoggerInfo
          (Js.nl ++ "Share your signature share with other participants.")) ;;
  emit (LoggerInfo
          ("Enter " ++ Js.toString (numSigners - 1)
             ++ " signature shares of the participants (excluding your own)")) ;;
  collectStrings "Signature Share" (numSigners - 1) [signatureShare].

End MultisigSigningSessionManager.

(* ===================================================================== *)
(** ** The node: wallet, RPC layer and the two multisig routes            *)
(* ===================================================================== *)

Module Wallet.

(** Modelled from the spec: the wallet subsystem is not part of the
    sources at hand.  The spec has it expose, per account, the identity
    and the key package used for signing, a flag telling whether the
    account is a multisig signer, and [createMultisigSecret(name)], which
    generates a secret, records its identity under [name] and returns the
    identity, or fails with a duplicate-name condition when an identity
    already exists under that name. *)
Record MultisigKeys := {
  identity : string;
  keyPackage : string
}.

Record Account := {
  name : string;
  multisigKeys : option MultisigKeys
}.

(** [randomIdentity k] is the identity of the [k]-th secret the wallet
    draws. *)
Record t := {
  accounts : list Account;
  defaultAccount : option string;
  secrets : list (string * Js.Buffer);
  randomIdentity : nat -> Js.Buffer
}.

Definition getAccountByName (w : t) (n : string) : option Account :=
  find (fun a => String.eqb (name a) n) (accounts w).

Definition getDefaultAccount (w : t) : option Account :=
  match defaultAccount w with
  | Some n => getAccountByName w n
  | None => None
  end.

Definition hasSecretName (w : t) (n : string) : bool :=
  existsb (fun p => String.eqb (fst p) n) (secrets w).

Definition putSecret (n : string) (id : Js.Buffer) (w : t) : t :=
  {| accounts := accounts w;
     defaultAccount := defaultAccount w;
     secrets := secrets w ++ [(n, id)];
     randomIdentity := randomIdentity w |}.

Definition createMultisigSecret (n : string) : M t Js.Buffer :=
  fun w =>
    if hasSecretName w n then (Throws (DuplicateAccountNameError n), w)
    else
      let id := randomIdentity w (List.length (secrets w)) in
      (Returns id, putSecret n id w).

End Wallet.

Module Rpc.

(** Request data as it arrives: a JSON value.  A key that is absent from
    an object reads as [undefined], which is [None] below. *)
#[warnings="-register-all"] Inductive JValue :=
| JNull
| JBool (b : bool)
| JNumber (n : Z)
| JString (s : string)
| JArray (items : list JValue)
| JObject (fields : list (string * JValue)).

Fixpoint lookup (k : string) (fields : list (string * JValue)) : option JValue :=
  match fields with
  | [] => None
  | (k', v) :: rest => if String.eqb k k' then Some v else lookup k rest
  end.

Definition field (k : string) (v : JValue) : option JValue :=
  match v with
  | JObject fields => lookup k fields
  | _ => None
  end.

(** The schemas the routes declare with [yup]:
    [string().defined()], [string().optional()], [array(s).defined()] and
    [object({...}).defined()]. *)
#[warnings="-register-all"] Inductive Schema :=
| string_defined
| string_optional
| array_defined (item : Schema)
| object_defined (shape : list (string * Schema)).

(** Modelled from the spec: the router and the validation framework are
    not part of the sources at hand.  The spec has the RPC layer validate
    the shape of a request strictly against the schema the route
    declares, and reject a malformed request before the route's handler
    (hence any wallet or cryptographic call) runs. *)
Fixpoint matches (s : Schema) (v : option JValue) {struct s} : bool :=
  match s with
  | string_defined =>
      match v with
      | Some (JString _) => true
      | _ => false
      end
  | string_optional =>
      match v with
      | None => true
      | Some (JString _) => true
      | _ => false
      end
  | array_defined item =>
      match v with
      | Some (JArray items) => forallb (fun x => matches item (Some x)) items
      | _ => false
      end
  | object_defined shape =>
      match v with
      | Some (JObject fields) =>
          (fix each (sh : list (string * Schema)) : bool :=
             match sh with
             | [] => true
             | (k, s') :: rest => matches s' (lookup k fields) && each rest
             end) shape
      | _ => false
      end
  end.

(** Native calls made while serving a request, in order. *)
Inductive NativeCall :=
| NewUnsignedTransaction (data : Js.Buffer)
| CreateSignatureShare (identity keyPackage signingPackage : string)
    (transactionHash : Js.Buffer) (publicKeyRandomness : string)
    (signers : list string).

(** The RPC context of a node: its wallet, when it has one, and the
    native calls made so far. *)
Record Node := {
  wallet : option Wallet.t;
  calls : list NativeCall
}.

Definition set_wallet (w : Wallet.t) (n : Node) : Node :=
  {| wallet := Some w; calls := calls n |}.

Definition called (c : NativeCall) : M Node unit :=
  modify (fun n => {| wallet := wallet n; calls := calls n ++ [c] |}).

(** Modelled from the spec: [AssertHasRpcContext(request, context,
    'wallet')] is not part of the sources at hand; it fails unless the
    context carries a wallet. *)
Definition AssertHasRpcContext_wallet : M Node Wallet.t :=
  fun n =>
    match wallet n with
    | Some w => (Returns w, n)
    | None => (Throws (JsError "Expected RPC context to have wallet"), n)
    end.

(** Modelled from the spec: [getAccount(wallet, name)] is not part of the
    sources at hand; the spec has the request name an account, optionally,
    and requires that the resolved account exist: the account of that
    name, or the wallet's default account when no name is given. *)
Definition resolved_account (w : Wallet.t) (name : option string)
    : option Wallet.Account :=
  match name with
  | Some n =>
      if Js.truthy n then Wallet.getAccountByName w n
      else Wallet.getDefaultAccount w
  | None => Wallet.getDefaultAccount w
  end.

Definition getAccount (w : Wallet.t) (name : option string)
    : M Node Wallet.Account :=
  match resolved_account w name with
  | Some a => ret a
  | None => throw (RpcValidationError "No account found")
  end.

(** Modelled from the spec: [AssertMultisigSigner(account)] is not part
    of the sources at hand; the spec has it fail unless the account is
    flagged as a multisig signer, after which the account's identity and
    key package can be read. *)
Definition AssertMultisigSigner (a : Wallet.Account)
    : M Node Wallet.MultisigKeys :=
  match Wallet.multisigKeys a with
  | Some keys => ret keys
  | None =>
      throw (JsError ("Account " ++ Wallet.name a ++ " is not a multisig signer account"))
  end.

(** [routes.register(path, schema, handler)]: what the registered route
    does with request data. *)
Definition register {Req Res} (schema : Schema)
    (typed : JValue -> option Req) (handler : Req -> M Node Res)
    (data : JValue) : M Node Res :=
  if matches schema (Some data) then
    match typed data with
    | Some request => handler request
    | None => throw (RpcValidationError "request does not match its schema")
    end
  else throw (RpcValidationError "request does not match its schema").

(** *** wallet/multisig/createParticipant *)

Record CreateParticipantRequest := {
  cp_name : string
}.

Record CreateParticipantResponse := {
  cp_identity : string
}.

Definition CreateParticipantRequestSchema : Schema :=
  object_defined [("name", string_defined)].

Definition CreateParticipantRequest_of (data : JValue)
    : option CreateParticipantRequest :=
  match field "name" data with
  | Some (JString n) => Some {| cp_name := n |}
  | _ => None
  end.

(** The handler of the route. *)
Definition createParticipant_handler (request : CreateParticipantRequest)
    : M Node CreateParticipantResponse :=
  w <- AssertHasRpcContext_wallet ;;
  identity <-
    (fun n =>
       match Wallet.createMultisigSecret (cp_name request) w with
       | (Returns id, w') => (Returns id, set_wallet w' n)
       | (Throws e, w') => (Throws e, set_wallet w' n)
       | (Hangs, w') => (Hangs, set_wallet w' n)
       end) ;;
  ret {| cp_identity := Js.toString_hex identity |}.

Definition createParticipant : JValue -> M Node CreateParticipantResponse :=
  register CreateParticipantRequestSchema CreateParticipantRequest_of
    createParticipant_handler.

(** *** wallet/multisig/createSignatureShare *)

Record Signer := {
  signer_identity : string
}.

Record CreateSignatureShareRequest := {
  account : option string;
  signingPackage : string;
  unsignedTransaction : string;
  signers : list Signer
}.

Record CreateSignatureShareResponse := {
  signatureShare : string
}.

Definition CreateSignatureShareRequestSchema : Schema :=
  object_defined
    [("account", string_optional);
     ("signingPackage", string_defined);
     ("unsignedTransaction", string_defined);
     ("signers",
      array_defined (object_defined [("identity", string_defined)]))].

Fixpoint Signers_of (items : list JValue) : option (list Signer) :=
  match items with
  | [] => Some []
  | x :: rest =>
      match field "identity" x, Signers_of rest with
      | Some (JString i), Some l => Some ({| signer_identity := i |} :: l)
      | _, _ => None
      end
  end.

Definition CreateSignatureShareRequest_of (data : JValue)
    : option CreateSignatureShareRequest :=
  match field "account" data, field "signingPackage" data,
        field "unsignedTransaction" data, field "signers" data with
  | None, Some (JString p), Some (JString u), Some (JArray l) =>
      option_map
        (fun ss => {| account := None; signingPackage := p;
                      unsignedTransaction := u; signers := ss |})
        (Signers_of l)
  | Some (JString a), Some (JString p), Some (JString u), Some (JArray l) =>
      option_map
        (fun ss => {| account := Some a; signingPackage := p;
                      unsignedTransaction := u; signers := ss |})
        (Signers_of l)
  | _, _, _, _ => None
  end.

Section WithNative.
Context {native : Native.Library}.

(** The native calls of a request served to the end. *)
Definition share_calls (keys : Wallet.MultisigKeys)
    (request : CreateSignatureShareRequest)
    (unsigned : Native.UnsignedTransaction) : list NativeCall :=
  [NewUnsignedTransaction (Js.Buffer_from_hex (unsignedTransaction request));
   CreateSignatureShare
     (Wallet.identity keys) (Wallet.keyPackage keys)
     (signingPackage request)
     (Native.hash unsigned) (Native.publicKeyRandomness unsigned)
     (map signer_identity (signers request))].

(** The handler of the route. *)
Definition createSignatureShare_handler (request : CreateSignatureShareRequest)
    : M Node CreateSignatureShareResponse :=
  w <- AssertHasRpcContext_wallet ;;
  account <- getAccount w (account request) ;;
  multisigKeys <- AssertMultisigSigner account ;;
  let data := Js.Buffer_from_hex (unsignedTransaction request) in
  called (NewUnsignedTransaction data) ;;
  unsigned <- new_UnsignedTransaction data ;;
  let identities := map signer_identity (signers request) in
  called (CreateSignatureShare
            (Wallet.identity multisigKeys) (Wallet.keyPackage multisigKeys)
            (signingPackage request)
            (Native.hash unsigned) (Native.publicKeyRandomness unsigned)
            identities) ;;
  match Native.createSignatureShare
          (Wallet.identity multisigKeys) (Wallet.keyPackage multisigKeys)
          (signingPackage request)
          (Native.hash unsigned) (Native.publicKeyRandomness unsigned)
          identities with
  | inl e => throw e
  | inr signatureShare => ret {| signatureShare := signatureShare |}
  end.

Definition createSignatureShare
    : JValue -> M Node CreateSignatureShareResponse :=
  register CreateSignatureShareRequestSchema CreateSignatureShareRequest_of
    createSignatureShare_handler.

End WithNative.

End Rpc.

(* ===================================================================== *)
(** ** The RPC client and the identity creation command                   *)
(* ===================================================================== *)

Module RpcClient.

(** Modelled from the spec: the error codes of the SDK and the transport
    between an RPC client and the node are not part of the sources at
    hand.  The spec has a name collision surface to the caller as a
    distinguishable error code. *)
Definition DUPLICATE_ACCOUNT_NAME : string := "duplicate-account-name".

Definition VALIDATION : string := "validation".

Definition ERROR : string := "error".

Definition RpcRequestError_of (e : Error) : Error :=
  match e with
  | DuplicateAccountNameError n =>
      RpcRequestError DUPLICATE_ACCOUNT_NAME
        ("Account already exists with the name " ++ n)
  | RpcValidationError m => RpcRequestError VALIDATION m
  | RpcRequestError c m => RpcRequestError c m
  | JsError m => RpcRequestError ERROR m
  | NativeError m => RpcRequestError ERROR m
  end.

(** [client.wallet.multisig.createParticipant(request)] against a node. *)
Definition createParticipant (request : Rpc.CreateParticipantRequest)
    : M Rpc.Node Rpc.CreateParticipantResponse :=
  fun n =>
    match Rpc.createParticipant
            (Rpc.JObject [("name", Rpc.JString (Rpc.cp_name request))]) n with
    | (Throws e, n') => (Throws (RpcRequestError_of e), n')
    | r => r
    end.

End RpcClient.

Module MultisigIdentityCreate.

Inductive Event :=
| Log (line : string)
| InputPrompt (label : string)
| ConnectRpc.

Section WithClient.

(** The node the command talks to, and the client method it calls. *)
Variable Server : Type.
Variable client_createParticipant :
  Rpc.CreateParticipantRequest -> M Server Rpc.CreateParticipantResponse.

(** The operator's replies to the prompts, the server, and what the
    command has printed and asked so far. *)
Record World := {
  answers : list string;
  server : Server;
  trace : list Event
}.

Definition emit (e : Event) : M World unit :=
  modify (fun w => {| answers := answers w; server := server w;
                      trace := trace w ++ [e] |}).

(** Modelled from the spec: [inputPrompt(label, true)] is not part of
    the sources at hand; as the other prompts it gives the operator's
    next reply, and never settles when the operator has stopped
    answering. *)
Definition inputPrompt (label : string) : M World string :=
  emit (InputPrompt label) ;;
  fun w =>
    match answers w with
    | [] => (Hangs, w)
    | a :: rest =>
        (Returns a, {| answers := rest; server := server w; trace := trace w |})
    end.

(** A call of the client runs on the server. *)
Definition call {A} (m : M Server A) : M World A :=
  fun w =>
    let '(r, s') := m (server w) in
    (r, {| answers := answers w; server := s'; trace := trace w |}).

Definition is_undefined {A} (o : option A) : bool :=
  match o with
  | Some _ => false
  | None => true
  end.

(** [start]: the loop state is the pair of local variables [name] and
    [response]. *)
Definition start (flags_name : option string) : M World unit :=
  name <-
    match flags_name with
    | Some n =>
        if Js.truthy n then ret n
        else inputPrompt "Enter a name for the identity"
    | None => inputPrompt "Enter a name for the identity"
    end ;;
  emit ConnectRpc ;;
  fuel <- gets (fun w => S (List.length (answers w))) ;;
  '(_, response) <-
    while_ fuel
      (fun '(_, response) => is_undefined response)
      (fun '(name, response) =>
         try_catch
           (r <- call (client_createParticipant {| Rpc.cp_name := name |}) ;;
            ret (name, Some r))
           (fun e =>
              match e with
              | RpcRequestError code codeMessage =>
                  if String.eqb code RpcClient.DUPLICATE_ACCOUNT_NAME then
                    emit (Log EmptyString) ;;
                    emit (Log codeMessage) ;;
                    name' <- inputPrompt "Enter a new name for the identity" ;;
                    ret (name', response)
                  else throw e
              | _ => throw e
              end))
      (name, None) ;;
  match response with
  | Some r =>
      emit (Log "Identity:") ;;
      emit (Log (Rpc.cp_identity r))
  | None => ret tt
  end.

End WithClient.

Arguments answers {Server} w.
Arguments server {Server} w.
Arguments trace {Server} w.

End MultisigIdentityCreate.

(* ===================================================================== *)
(** ** Block headers                                                      *)
(* ===================================================================== *)

Module Chain.

(** A [Date] that holds a time value, in milliseconds. *)
Record Date := {
  getTime : Z
}.



(** The writers of [bufio]: fixed-width integers, least significant byte
    first or last, reduced modulo their width. *)
Fixpoint le_bytes (width : nat) (z : Z) : Js.Buffer :=
  match width with
  | O => []
  | S k => Js.byte_of_N (Z.to_N (z mod 256)) :: le_bytes k (z / 256)
  end.

Definition be_bytes (width : nat) (z : Z) : Js.Buffer := rev (le_bytes width z).

Definition writeBigU64BE (z : Z) : Js.Buffer := be_bytes 8 z.
Definition writeU32 (z : Z) : Js.Buffer := le_bytes 4 z.
Definition writeU64 (z : Z) : Js.Buffer := le_bytes 8 z.
Definition writeBigU256BE (z : Z) : Js.Buffer := be_bytes 32 z.
Definition writeHash (b : Js.Buffer) : Js.Buffer := b.
Definition writeBytes (b : Js.Buffer) : Js.Buffer := b.

(** What the header code uses and the sources at hand do not define:
    the hash function, the [Target] class (its constructor from a
    decimal string, which may throw, its field [targetValue] and its
    method [asBigInt]), the two string serdes, and the clock read by
    [new Date()].  The definitions below are parametric in them. *)
Class Collaborators := {
  blake3 : Js.Buffer -> Js.Buffer;
  Target : Type;
  Target_new : string -> Error + Target;
  targetValue : Target -> Z;
  asBigInt : Target -> Z;
  BlockHashSerde_serialize : Js.Buffer -> string;
  BlockHashSerde_deserialize : string -> Error + Js.Buffer;
  GraffitiSerde_serialize : Js.Buffer -> string;
  GraffitiSerde_deserialize : string -> Error + Js.Buffer;
  now : Date
}.

Section WithCollaborators.
Context {env : Collaborators}.

Record BlockHeader := {
  sequence : Z;
  previousBlockHash : Js.Buffer;
  noteCommitment : Js.Buffer;
  transactionCommitment : Js.Buffer;
  target : Target;
  randomness : Z;
  timestamp : Date;
  graffiti : Js.Buffer;
  noteSize : option Z;
  work : Z;
  hash : Js.Buffer
}.

Definition hashBlockHeader (serializedHeader : Js.Buffer) : Js.Buffer :=
  blake3 serializedHeader.

(** [BlockHeader.serialize] *)
Definition serialize (this : BlockHeader) : Js.Buffer :=
  writeBigU64BE (randomness this)
    ++ writeU32 (sequence this)
    ++ writeHash (previousBlockHash this)
    ++ writeHash (noteCommitment this)
    ++ writeHash (transactionCommitment this)
    ++ writeBigU256BE (asBigInt (target this))
    ++ writeU64 (getTime (timestamp this))
    ++ writeBytes (graffiti this).

(** [BlockHeader.computeHash] *)
Definition computeHash (this : BlockHeader) : Js.Buffer :=
  hashBlockHeader (serialize this).

(** The constructor; an argument left out is [None].  [computeHash] runs
    on the header whose other fields are already set. *)
Definition new_BlockHeader
    (sequence : Z) (previousBlockHash noteCommitment transactionCommitment : Js.Buffer)
    (target : Target) (randomness : option Z) (timestamp : option Date)
    (graffiti : Js.Buffer) (noteSize : option Z) (work : option Z)
    (hash : option Js.Buffer) : BlockHeader :=
  let this (h : Js.Buffer) :=
    {| sequence := sequence;
       previousBlockHash := previousBlockHash;
       noteCommitment := noteCommitment;
       transactionCommitment := transactionCommitment;
       target := target;
       randomness := match randomness with Some r => r | None => 0%Z end;
       timestamp := match timestamp with Some t => t | None => now end;
       graffiti := graffiti;
       noteSize := noteSize;
       work := match work with Some x => x | None => 0%Z end;
       hash := h |} in
  match hash with
  | Some h => this h
  | None => this (computeHash (this []))
  end.


Record SerializedBlockHeader := {
  s_sequence : Z;
  s_previousBlockHash : string;
  s_noteCommitment : Js.Buffer;
  s_transactionCommitment : Js.Buffer;
  s_target : string;
  s_randomness : string;
  s_timestamp : Z;
  s_noteSize : option Z;
  s_work : option string;
  s_graffiti : string
}.

(** [BlockHeaderSerde.serialize] *)
Definition BlockHeaderSerde_serialize (header : BlockHeader)
    : SerializedBlockHeader :=
  {| s_sequence := sequence header;
     s_previousBlockHash := BlockHashSerde_serialize (previousBlockHash header);
     s_noteCommitment := noteCommitment header;
     s_transactionCommitment := transactionCommitment header;
     s_target := Js.toString (targetValue (target header));
     s_randomness := Js.toString (randomness header);
     s_timestamp := getTime (timestamp header);
     s_graffiti := GraffitiSerde_serialize (graffiti header);
     s_noteSize := noteSize header;
     s_work := Some (Js.toString (work header)) |}.

Definition BigInt_or_throw (s : string) : Error + Z :=
  match Js.BigInt s with
  | Some z => inr z
  | None => inl (JsError ("Cannot convert " ++ s ++ " to a BigInt"))
  end.

(** [BlockHeaderSerde.deserialize]: the arguments of the constructor are
    evaluated from left to right, and the first that throws ends the
    call. *)
Definition BlockHeaderSerde_deserialize (data : SerializedBlockHeader)
    : Error + BlockHeader :=
  match BlockHashSerde_deserialize (s_previousBlockHash data) with
  | inl e => inl e
  | inr previousBlockHash =>
  match Target_new (s_target data) with
  | inl e => inl e
  | inr target =>
  match BigInt_or_throw (s_randomness data) with
  | inl e => inl e
  | inr randomness =>
  match GraffitiSerde_deserialize (s_graffiti data) with
  | inl e => inl e
  | inr graffiti =>
  match (if Js.truthy_opt (s_work data)
         then match s_work data with
              | Some x => BigInt_or_throw x
              | None => inr 0%Z
              end
         else inr 0%Z) with
  | inl e => inl e
  | inr work =>
      inr (new_BlockHeader
             (s_sequence data)
             previousBlockHash
             (s_noteCommitment data)
             (s_transactionCommitment data)
             target
             (Some randomness)
             (Some {| getTime := s_timestamp data |})
             graffiti
             (s_noteSize data)
             (Some work)
             None)
  end end end end end.

End WithCollaborators.

End Chain.

(* ===================================================================== *)
(** ** Vocabulary for the polling loops of the relayed transport          *)
(* ===================================================================== *)

Module Polling.
Import Session.

(** The test of the three loops: the list held is still short of the
    target. *)
Definition short (numSigners : Z) (held : list string) : bool :=
  (Z.of_nat (List.length held) <? numSigners)%Z.

(** The list held once the status events of [batch] have been dispatched
    to the callback that stores field [sel] of each message. *)
Definition stored (sel : SigningStatus -> list string)
    (batch : list SigningStatus) (held : list string) : list string :=
  fold_left (fun _ message => sel message) batch held.

(** The body of the three loops, which differ by the field [sel] only. *)
Definition poll_body (sel : SigningStatus -> list string) (numSigners : Z)
    (held : list string) : M World (list string) :=
  emit GetSigningStatus ;;
  emit (UxActionStatus (List.length held) numSigners) ;;
  batch <- sleep 3000 ;;
  ret (stored sel batch held).

(** The common shape of the three collectors of the relayed transport,
    which differ by the submit call, the label and the field [sel]. *)
Definition collector (submit : Event) (label : string)
    (sel : SigningStatus -> list string) (value : string) (numSigners : Z)
    : M World (list string) :=
  emit submit ;;
  emit OnSigningStatusOn ;;
  emit (UxActionStart label) ;;
  fuel <- poll_fuel ;;
  held <- while_ fuel (short numSigners) (poll_body sel numSigners) [value] ;;
  emit OnSigningStatusClear ;;
  emit UxActionStop ;;
  ret held.

(** The list held after the successive sleeps of [batches]. *)
Definition held_after (sel : SigningStatus -> list string)
    (held : list string) (batches : list (list SigningStatus)) : list string :=
  fold_left (fun h batch => stored sel batch h) batches held.

(** Every sleep of [batches] ends with the list still short. *)
Fixpoint all_short (sel : SigningStatus -> list string) (numSigners : Z)
    (held : list string) (batches : list (list SigningStatus)) : bool :=
  match batches with
  | [] => true
  | batch :: rest =>
      short numSigners (stored sel batch held)
      && all_short sel numSigners (stored sel batch held) rest
  end.

(** The last status event of the sleep reports at least [numSigners]
    contributions. *)
Definition ends_full (sel : SigningStatus -> list string) (numSigners : Z)
    (batch : list SigningStatus) : bool :=
  match rev batch with
  | [] => false
  | message :: _ => negb (short numSigners (sel message))
  end.

(** What one iteration per sleep of [batches] does, in order: a status
    request, the progress display, a sleep of three seconds and the
    events dispatched during it. *)
Fixpoint polling (sel : SigningStatus -> list string) (numSigners : Z)
    (held : list string) (batches : list (list SigningStatus)) : list Event :=
  match batches with
  | [] => []
  | batch :: rest =>
      [GetSigningStatus; UxActionStatus (List.length held) numSigners;
       Sleep 3000]
        ++ map SigningStatusEvent batch
        ++ polling sel numSigners (stored sel batch held) rest
  end.

(** The status messages dispatched in a trace, in order. *)
Definition received (events : list Event) : list SigningStatus :=
  flat_map (fun e => match e with
                     | SigningStatusEvent m => [m]
                     | _ => []
                     end) events.

(** A relayed collector [run] returns, and what it returns is the list
    carried by the last status event it has received, a list of at least
    [numSigners] entries. *)
Definition relayed_quorum (run : M World (list string))
    (sel : SigningStatus -> list string) (numSigners : Z) (w : World) : Prop :=
  exists l w' events before message,
    run w = (Returns l, w') /\
    trace w' = trace w ++ events /\
    received events = before ++ [message] /\
    l = sel message /\
    (numSigners <= Z.of_nat (List.length l))%Z.

(** An interactive collector [run] returns the local contribution
    followed by the [numSigners - 1] values the operator types next:
    exactly [numSigners] entries. *)
Definition interactive_quorum (run : M World (list string))
    (local : string) (numSigners : Z) (w : World) : Prop :=
  exists l w',
    run w = (Returns l, w') /\
    l = local :: firstn (Z.to_nat (numSigners - 1)) (answers w) /\
    Z.of_nat (List.length l) = numSigners /\
    nth_error l 0 = Some local.

(** A relayed collector [run] polls once per sleep up to the first sleep
    [batch] after which the list held is no longer short, then clears the
    subscription and returns that list; the sleeps of [post] are left to
    whatever runs next. *)
Definition polls_until_full (run : M World (list string))
    (submit : Event) (label : string) (sel : SigningStatus -> list string)
    (value : string) (numSigners : Z) (w : World) : Prop :=
  exists pre batch post,
    schedule w = pre ++ batch :: post /\
    all_short sel numSigners [value] pre = true /\
    short numSigners (stored sel batch (held_after sel [value] pre)) = false /\
    run w =
      (Returns (stored sel batch (held_after sel [value] pre)),
       log ([submit; OnSigningStatusOn; UxActionStart label]
              ++ polling sel numSigners [value] (pre ++ [batch])
              ++ [OnSigningStatusClear; UxActionStop])
         (set_schedule post w)).

(** The whole behaviour of a relayed collector [run]: with a target of
    at most one it returns at once, without polling; with a larger target
    it polls until the first full sleep, provided there is one. *)
Definition polling_discipline (run : M World (list string))
    (submit : Event) (label : string) (sel : SigningStatus -> list string)
    (value : string) (numSigners : Z) (w : World) : Prop :=
  ((numSigners <= 1)%Z ->
   run w =
     (Returns [value],
      log [submit; OnSigningStatusOn; UxActionStart label;
           OnSigningStatusClear; UxActionStop] w)) /\
  ((2 <= numSigners)%Z ->
   existsb (ends_full sel numSigners) (schedule w) = true ->
   polls_until_full run submit label sel value numSigners w).

(** An interaction with the relay or the network. *)
Definition is_relay_call (e : Event) : bool :=
  match e with
  | Connect | JoinSession _ | WaitForJoinedSession
  | StartSigningSession _ _
  | SubmitSigningIdentity _ | SubmitSigningCommitment _
  | SubmitSignatureShare _
  | GetSigningStatus | OnSigningStatusOn | OnSigningStatusClear => true
  | _ => false
  end.

(** A prompt of the configuration step. *)
Definition is_prompt (e : Event) : bool :=
  match e with
  | LongPrompt _ | InputNumberPrompt _ => true
  | _ => false
  end.

End Polling.

(* ===================================================================== *)
(** ** Vocabulary for the configuration step                              *)
(* ===================================================================== *)

Module Configuring.
Import Session.

(** The unsigned transaction [inputSigningConfig] resolves: the one of
    the options, or else the operator's next reply. *)
Definition resolved_unsignedTransaction (options : Options) (w : World)
    : option string :=
  match opt_unsignedTransaction options with
  | Some t => Some t
  | None => hd_error (answers w)
  end.

(** The number of signers [inputSigningConfig] resolves: the one of the
    options, or else the number the operator types next. *)
Definition resolved_numSigners (options : Options) (w : World) : option Z :=
  match opt_numSigners options with
  | Some n => Some n
  | None => hd_error (numbers w)
  end.

(** The prompts for the values the options leave out. *)
Definition config_prompts (options : Options) : list Event :=
  match opt_unsignedTransaction options with
  | Some _ => []
  | None => [LongPrompt "Enter the unsigned transaction"]
  end
  ++
  match opt_numSigners options with
  | Some _ => []
  | None =>
      [InputNumberPrompt
         "Enter the number of participants in signing this transaction"]
  end.

(** The world once those prompts have been made and answered. *)
Definition answered (options : Options) (w : World) : World :=
  let w1 :=
    match opt_unsignedTransaction options with
    | Some _ => w
    | None => set_answers (tl (answers w)) w
    end in
  let w2 :=
    match opt_numSigners options with
    | Some _ => w1
    | None => set_numbers (tl (numbers w1)) w1
    end in
  log (config_prompts options) w2.

(** What the polling loop of [getSessionConfig] does over [k] sleeps. *)
Definition config_polling (k : nat) : list Event :=
  List.concat (repeat [GetSigningStatus; Sleep 3000] k).

(** What a rejoin does when the relay's first status events, [batch],
    arrive during the sleep that follows [k] silent ones. *)
Definition rejoin_trace (id : string) (k : nat) (batch : list SigningStatus)
    : list Event :=
  [JoinSession id; OnSigningStatusOn;
   UxActionStart "Waiting for signer config from server"]
    ++ config_polling (S k)
    ++ map SigningStatusEvent batch
    ++ [OnSigningStatusClear; UxActionStop].

(** Creating a session, or asking the operator for its configuration. *)
Definition creates_or_configures (e : Event) : bool :=
  match e with
  | StartSigningSession _ _ | Connect | WaitForJoinedSession
  | LongPrompt _ | InputNumberPrompt _ => true
  | _ => false
  end.

End Configuring.

(* ===================================================================== *)
(** ** Concrete inputs                                                    *)
(* ===================================================================== *)

Module Examples.
Import Session.

(** A stand-in for the native bindings: a transaction is its bytes, its
    hash is its bytes, its randomness their hexadecimal form, and a
    signature share is a readable record of the arguments it was
    computed from. *)
Definition toy_native : Native.Library :=
  {| Native.UnsignedTransaction := Js.Buffer;
     Native.UnsignedTransaction_new := fun b => inr b;
     Native.hash := fun b => b;
     Native.publicKeyRandomness := fun b => Js.toString_hex b;
     Native.createSignatureShare :=
       fun identity keyPackage signingPackage transactionHash randomness signers =>
         inr (String.concat "|"
                ([identity; keyPackage; signingPackage;
                  Js.toString_hex transactionHash; randomness] ++ signers)) |}.

(** A status event of a session of [n] signers on transaction [tx], in
    which the three rounds hold the same list [held]. *)
Definition status (n : Z) (tx : string) (held : list string) : SigningStatus :=
  {| msg_numSigners := n;
     msg_unsignedTransaction := tx;
     msg_identities := held;
     msg_signingCommitments := held;
     msg_signatureShares := held |}.

(** A manager with no session id, an operator who types [typed] at the
    text prompts and [nums] at the number prompts, and a relay that
    delivers [sched]. *)
Definition world (sid : option string) (typed : list string) (nums : list Z)
    (sched : list (list SigningStatus)) : World :=
  {| sessionId := sid;
     client_sessionId := Some "session-1";
     client_connectionString := "tcp://relay/session-1";
     answers := typed;
     numbers := nums;
     schedule := sched;
     trace := [] |}.

(** A wallet with a signer account, which is the default one, an
    account without multisig keys, and one participant secret. *)
Definition alice : Wallet.Account :=
  {| Wallet.name := "alice";
     Wallet.multisigKeys :=
       Some {| Wallet.identity := "72aa"; Wallet.keyPackage := "kp-alice" |} |}.

Definition bob : Wallet.Account :=
  {| Wallet.name := "bob"; Wallet.multisigKeys := None |}.

Definition wallet0 : Wallet.t :=
  {| Wallet.accounts := [alice; bob];
     Wallet.defaultAccount := Some "alice";
     Wallet.secrets := [("taken", [x01; x02])];
     Wallet.randomIdentity := fun k => [x72; Js.byte_of_N (N.of_nat k); xfe] |}.

Definition node0 : Rpc.Node :=
  {| Rpc.wallet := Some wallet0; Rpc.calls := [] |}.

(** A well-formed request for a signature share, for the account named
    or for the default one. *)
Definition share_request (account : option string) : Rpc.JValue :=
  Rpc.JObject
    (match account with
     | Some a => [("account", Rpc.JString a)]
     | None => []
     end
     ++ [("signingPackage", Rpc.JString "sp");
         ("unsignedTransaction", Rpc.JString "ab12");
         ("signers",
          Rpc.JArray
            [Rpc.JObject [("identity", Rpc.JString "72aa")];
             Rpc.JObject [("identity", Rpc.JString "72bb")]])]).

(** Stand-ins for what the block header code takes from elsewhere: a
    target is its value, read from a decimal string and refused above
    256 bits; a hash or a graffiti is serialized as the 64 hexadecimal
    digits of its 32 bytes. *)
Definition target_new (s : string) : Error + Z :=
  match Js.BigInt s with
  | Some z =>
      if (z <? 2 ^ 256)%Z then inr z
      else inl (JsError "Target value exceeds max target")
  | None => inl (JsError "Cannot convert to a BigInt")
  end.

Definition hex32_deserialize (s : string) : Error + Js.Buffer :=
  if Nat.eqb (String.length s) 64 then inr (Js.Buffer_from_hex s)
  else inl (JsError "not a 64-character hex string").

Definition checksum (b : Js.Buffer) : Js.Buffer :=
  [Js.byte_of_N (fold_left (fun acc x => (acc + Byte.to_N x) mod 256)%N b 0%N)].

Definition toy_chain : Chain.Collaborators :=
  {| Chain.blake3 := checksum;
     Chain.Target := Z;
     Chain.Target_new := target_new;
     Chain.targetValue := fun t => t;
     Chain.asBigInt := fun t => t;
     Chain.BlockHashSerde_serialize := Js.toString_hex;
     Chain.BlockHashSerde_deserialize := hex32_deserialize;
     Chain.GraffitiSerde_serialize := Js.toString_hex;
     Chain.GraffitiSerde_deserialize := hex32_deserialize;
     Chain.now := {| Chain.getTime := 1700000000999 |} |}.

Definition header0 : @Chain.BlockHeader toy_chain :=
  @Chain.Build_BlockHeader toy_chain
    7                         (* sequence *)
    (repeat x11 32)           (* previousBlockHash *)
    (repeat x22 32)           (* noteCommitment *)
    (repeat x33 32)           (* transactionCommitment *)
    883423532389192164791648750371459257913741948437809479060803100646309888%Z
    12345                     (* randomness *)
    {| Chain.getTime := 1700000000000 |}
    (repeat x44 32)           (* graffiti *)
    (Some 42%Z)               (* noteSize *)
    99                        (* work *)
    [x00].                    (* hash *)

(** A wallet that holds two participant secrets, and its node. *)
Definition wallet1 : Wallet.t :=
  {| Wallet.accounts := [alice; bob];
     Wallet.defaultAccount := Some "alice";
     Wallet.secrets := [("taken", [x01; x02]); ("busy", [x03; x04])];
     Wallet.randomIdentity := fun k => [x72; Js.byte_of_N (N.of_nat k); xfe] |}.

Definition node1 : Rpc.Node :=
  {| Rpc.wallet := Some wallet1; Rpc.calls := [] |}.

(** Native bindings that refuse an empty transaction and an empty list
    of signers. *)
Definition strict_native : Native.Library :=
  {| Native.UnsignedTransaction := Js.Buffer;
     Native.UnsignedTransaction_new :=
       fun b => match b with
                | [] => inl (NativeError "invalid transaction")
                | _ => inr b
                end;
     Native.hash := fun b => b;
     Native.publicKeyRandomness := fun b => Js.toString_hex b;
     Native.createSignatureShare :=
       fun identity keyPackage signingPackage transactionHash randomness signers =>
         match signers with
         | [] => inl (NativeError "no signers")
         | _ => inr (String.concat "|" (identity :: signers))
         end |}.


End Examples.

(* ===================================================================== *)
(** ** Fork choice, raw headers and the transaction commitment            *)
(* ===================================================================== *)

Module Fork.
Import Chain.

(** [a.compare(b)] on buffers: the sign of the first differing byte,
    bytes read as unsigned; when one buffer is a prefix of the other the
    shorter one is the smaller. *)
Fixpoint Buffer_compare (a b : Js.Buffer) : Z :=
  match a, b with
  | [], [] => 0
  | [], _ :: _ => -1
  | _ :: _, [] => 1
  | x :: a', y :: b' =>
      if (Byte.to_N x <? Byte.to_N y)%N then -1
      else if (Byte.to_N y <? Byte.to_N x)%N then 1
      else Buffer_compare a' b'
  end%Z.

Section WithCollaborators.
Context {env : Collaborators}.

(** [target.toDifficulty()], a method of the [Target] class, which the
    sources at hand do not define: a parameter. *)
Variable toDifficulty : Target -> Z.

(** [isBlockLater] *)
Definition isBlockLater (a b : BlockHeader) : bool :=
  if negb (sequence a =? sequence b)%Z then (sequence a >? sequence b)%Z
  else (Buffer_compare (hash a) (hash b) <? 0)%Z.

(** [isBlockHeavier] *)
Definition isBlockHeavier (a b : BlockHeader) : bool :=
  if negb (work a =? work b)%Z then (work a >? work b)%Z
  else if negb (sequence a =? sequence b)%Z then (sequence a >? sequence b)%Z
  else if negb (toDifficulty (target a) =? toDifficulty (target b))%Z
       then (toDifficulty (target a) >? toDifficulty (target b))%Z
  else (Buffer_compare (hash a) (hash b) <? 0)%Z.




End WithCollaborators.


End Fork.

Module Merkle.
Import Chain.

(** [Buffer.from('IRON_FISH_TRANSACTION_ROOT')] *)
Definition TRANSACTION_ROOT_PERSONALIZATION : Js.Buffer :=
  list_byte_of_string "IRON_FISH_TRANSACTION_ROOT".

(** [2 ** Math.ceil(Math.log2(n))] for the length [n >= 1] of an array:
    the logarithm of such a length is computed exactly enough for its
    ceiling to be the least [k] with [n <= 2 ** k]. *)
Definition pow2_ceil_log2 (n : nat) : nat := 2 ^ Nat.log2_up n.

(** The number of nodes of the perfectly balanced tree. *)
Definition perfectSize (n : nat) : nat :=
  if Nat.eqb n 1 then 2 else pow2_ceil_log2 n.

(** [Buffer.from([currentLevel])]: one byte, the level modulo 256. *)
Definition level_byte (currentLevel : nat) : Js.Buffer :=
  [Js.byte_of_N (N.of_nat currentLevel)].

Section WithCollaborators.
Context {env : Collaborators}.

Definition NULL_NODE : Js.Buffer := blake3 [x00].

(** [while (a.length < perfectSize) a.push(NULL_NODE)] *)
Definition pad (size : nat) (hashes : list Js.Buffer) : list Js.Buffer :=
  hashes ++ repeat NULL_NODE (size - List.length hashes).

(** The inner [for] loop: one node per pair of the current level.  An
    odd level reads [currentLevelHashes[i + 1]] past the end, and
    [Buffer.concat] throws on the [undefined] it gets. *)
Fixpoint nextLevel (currentLevel : nat) (currentLevelHashes : list Js.Buffer)
    : Error + list Js.Buffer :=
  match currentLevelHashes with
  | [] => inr []
  | [_] =>
      inl (JsError "Buffer.concat: undefined is not a Buffer")
  | node :: sibling :: rest =>
      match nextLevel currentLevel rest with
      | inl e => inl e
      | inr nodes =>
          inr (blake3 (TRANSACTION_ROOT_PERSONALIZATION
                         ++ level_byte currentLevel ++ node ++ sibling)
                 :: nodes)
      end
  end.

(** The outer [while (currentLevelHashes.length > 1)] loop and the final
    [return currentLevelHashes[0]].  A level is at most as long as half
    the one before, rounded up, so the callers' fuel, the length of the
    first level, is never exhausted. *)
Fixpoint reduceLevels (fuel : nat) (currentLevel : nat)
    (currentLevelHashes : list Js.Buffer) : Error + Js.Buffer :=
  match currentLevelHashes with
  | [] => inl (JsError "undefined is not a Buffer")
  | [root] => inr root
  | _ :: _ :: _ =>
      match fuel with
      | O => inl (JsError "out of fuel")
      | S fuel' =>
          match nextLevel currentLevel currentLevelHashes with
          | inl e => inl e
          | inr nodes => reduceLevels fuel' (S currentLevel) nodes
          end
      end
  end.

(** [transactionMerkleRoot]: the result, and the caller's array after the
    call, which the padding loop has extended in place.  The three
    assertions on [perfectSize] and the one on the padded length throw
    when they fail. *)
Definition transactionMerkleRoot (hashes : list Js.Buffer)
    : (Error + Js.Buffer) * list Js.Buffer :=
  match hashes with
  | [] => (inr (blake3 TRANSACTION_ROOT_PERSONALIZATION), hashes)
  | _ :: _ =>
      let size := perfectSize (List.length hashes) in
      if negb (List.length hashes <=? size)%nat then
        (inl (JsError "Assert.isTrue"), hashes)
      else if negb (1 <? size)%nat then
        (inl (JsError "Assert.isGreaterThan"), hashes)
      else if negb (Nat.eqb (Nat.land size (size - 1)) 0) then
        (inl (JsError "Assert.isEqual"), hashes)
      else
        let currentLevelHashes := pad size hashes in
        if negb (Nat.eqb size (List.length currentLevelHashes)) then
          (inl (JsError "Assert.isEqual"), currentLevelHashes)
        else
          (reduceLevels (List.length currentLevelHashes) 0 currentLevelHashes,
           currentLevelHashes)
  end.

(** [transactionCommitment], on the hashes of the transactions. *)
Definition transactionCommitment {Transaction : Type}
    (hashOf : Transaction -> Js.Buffer) (transactions : list Transaction)
    : Error + Js.Buffer :=
  fst (transactionMerkleRoot (map hashOf transactions)).

End WithCollaborators.

End Merkle.

Module HeaderData.
Import Chain.

(** A serialized header with its optional field [work] replaced. *)
Definition with_work (work : option string) (data : SerializedBlockHeader)
    : SerializedBlockHeader :=
  {| s_sequence := s_sequence data;
     s_previousBlockHash := s_previousBlockHash data;
     s_noteCommitment := s_noteCommitment data;
     s_transactionCommitment := s_transactionCommitment data;
     s_target := s_target data;
     s_randomness := s_randomness data;
     s_timestamp := s_timestamp data;
     s_noteSize := s_noteSize data;
     s_work := work;
     s_graffiti := s_graffiti data |}.

End HeaderData.

(* ===================================================================== *)
(** ** Vocabulary for whole runs                                          *)
(* ===================================================================== *)

Module Runs.
Import Session Polling.


(** A relayed collector [run] returns exactly when some sleep ends with
    a full report, and never settles otherwise. *)
Definition returns_iff_full (run : M World (list string))
    (sel : SigningStatus -> list string) (numSigners : Z) (w : World) : Prop :=
  ((exists l w', run w = (Returns l, w')) <->
   existsb (ends_full sel numSigners) (schedule w) = true) /\
  (existsb (ends_full sel numSigners) (schedule w) = false ->
   fst (run w) = Hangs).

(** What the relayed [startSession] does after the configuration step
    when it starts a session. *)
Definition start_trace (numSigners : Z) (unsignedTransaction : string)
    (w : World) : list Event :=
  [Connect;
   StartSigningSession numSigners unsignedTransaction;
   LoggerInfo (Js.nl ++ "Starting new signing session: "
                 ++ MultisigClientSigningSessionManager.show_sessionId
                      (client_sessionId w) ++ Js.nl);
   WaitForJoinedSession;
   LoggerInfo (Js.nl ++ "Signing session connection string:");
   LoggerInfo (client_connectionString w)].

End Runs.

Module Retries.
Import MultisigIdentityCreate.

Section WithClient.
Variable Server : Type.
Variable client :
  Rpc.CreateParticipantRequest -> M Server Rpc.CreateParticipantResponse.

(** The name and the server reached from [name] and [s] when the
    successive calls fail with the duplicate-name code and the messages
    of [collisions], the operator typing the names of [collisions] in
    turn; [None] when some call does otherwise. *)
Fixpoint after_collisions (name : string) (s : Server)
    (collisions : list (string * string)) : option (string * Server) :=
  match collisions with
  | [] => Some (name, s)
  | (codeMessage, typed) :: rest =>
      match client {| Rpc.cp_name := name |} s with
      | (Throws (RpcRequestError code m), s') =>
          if String.eqb code RpcClient.DUPLICATE_ACCOUNT_NAME
             && String.eqb m codeMessage
          then after_collisions typed s' rest
          else None
      | _ => None
      end
  end.

(** What the command prints and asks at each collision. *)
Definition collision_trace (collisions : list (string * string)) : list Event :=
  flat_map (fun c => [Log EmptyString; Log (fst c);
                      InputPrompt "Enter a new name for the identity"])
    collisions.

(** The loop of [start], as a function of its fuel. *)
Definition retry_loop (fuel : nat) (name : string)
    : M (World Server) (string * option Rpc.CreateParticipantResponse) :=
  while_ fuel
    (fun '(_, response) => is_undefined response)
    (fun '(name, response) =>
       try_catch
         (r <- call Server (client {| Rpc.cp_name := name |}) ;;
          ret (name, Some r))
         (fun e =>
            match e with
            | RpcRequestError code codeMessage =>
                if String.eqb code RpcClient.DUPLICATE_ACCOUNT_NAME then
                  emit Server (Log EmptyString) ;;
                  emit Server (Log codeMessage) ;;
                  name' <- inputPrompt Server "Enter a new name for the identity" ;;
                  ret (name', response)
                else throw e
            | _ => throw e
            end))
    (name, None).

End WithClient.

End Retries.

(* ===================================================================== *)
(** * Properties                                                          *)
(* ===================================================================== *)

(** ** Strings, buffers and big integers *)

Lemma toString_int_roundtrip (z : Z) :
  NilZero.int_of_string (Js.toString z) = Some (Z.to_int z).
Proof.
  unfold Js.toString. apply NilZero.isi.
  - destruct z; simpl; intros [= H]; try discriminate.
    now apply DecimalPos.Unsigned.to_uint_nonnil in H.
  - destruct z; simpl; intros [= H].
    now apply DecimalPos.Unsigned.to_uint_nonnil in H.
Qed.

(** A big integer printed and read back is itself. *)
(** The decimal form of an integer is never the empty string. *)
Lemma toString_truthy (z : Z) : Js.truthy (Js.toString z) = true.
Proof.
  pose proof (toString_int_roundtrip z) as H.
  destruct (Js.toString z) eqn:E; [discriminate H | reflexivity].
Qed.

(** A big integer printed and read back is itself. *)
Lemma BigInt_toString (z : Z) : Js.BigInt (Js.toString z) = Some z.
Proof.
  unfold Js.BigInt. pose proof (toString_truthy z) as Hne.
  rewrite toString_int_roundtrip.
  destruct (Js.toString z); [discriminate Hne|].
  simpl. now rewrite DecimalZ.of_to.
Qed.

Lemma hex_byte_roundtrip (x : byte) :
  Js.hexval (Js.hexdigit (Byte.to_N x / 16)) = Some (Byte.to_N x / 16)%N /\
  Js.hexval (Js.hexdigit (Byte.to_N x mod 16)) = Some (Byte.to_N x mod 16)%N /\
  Js.byte_of_N (16 * (Byte.to_N x / 16) + Byte.to_N x mod 16) = x.
Proof. destruct x; repeat split; reflexivity. Qed.

(** Decoding the hexadecimal form of a buffer gives the buffer back. *)
Lemma Buffer_from_hex_toString_hex (b : Js.Buffer) :
  Js.Buffer_from_hex (Js.toString_hex b) = b.
Proof.
  induction b as [|x rest IH]; [reflexivity|].
  destruct (hex_byte_roundtrip x) as (Hh & Hl & Hb).
  cbn [Js.toString_hex Js.Buffer_from_hex].
  rewrite Hh, Hl, Hb, IH. reflexivity.
Qed.

Lemma hexdigit_lower (x : byte) :
  Js.is_lower_hex_digit (Js.hexdigit (Byte.to_N x / 16)) = true /\
  Js.is_lower_hex_digit (Js.hexdigit (Byte.to_N x mod 16)) = true.
Proof. destruct x; split; reflexivity. Qed.

Lemma toString_hex_chars (b : Js.Buffer) :
  Js.all_chars Js.is_lower_hex_digit (Js.toString_hex b) = true.
Proof.
  induction b as [|x rest IH]; [reflexivity|].
  destruct (hexdigit_lower x) as (Hh & Hl).
  cbn [Js.toString_hex Js.all_chars]. now rewrite Hh, Hl, IH.
Qed.

Lemma toString_hex_length (b : Js.Buffer) :
  String.length (Js.toString_hex b) = 2 * List.length b.
Proof.
  induction b as [|x rest IH]; [reflexivity|].
  cbn [Js.toString_hex String.length List.length]. rewrite IH. lia.
Qed.

(** The hexadecimal form of a buffer is well formed. *)
Lemma toString_hex_is_hex (b : Js.Buffer) :
  Js.is_hex (Js.toString_hex b) = true.
Proof.
  unfold Js.is_hex. rewrite toString_hex_chars, toString_hex_length.
  rewrite Nat.even_mul. reflexivity.
Qed.


(** ** The polling loops of the relayed transport *)

Section PollingFacts.
Import Session Polling.

Lemma log_log (a b : list Event) (w : World) :
  log b (log a w) = log (a ++ b) w.
Proof. destruct w; unfold log; simpl. now rewrite app_assoc. Qed.

Lemma log_nil (w : World) : log [] w = w.
Proof. destruct w; unfold log; simpl. now rewrite app_nil_r. Qed.

Lemma set_schedule_log (s : list (list SigningStatus)) (a : list Event) (w : World) :
  set_schedule s (log a w) = log a (set_schedule s w).
Proof. reflexivity. Qed.

Lemma stored_app sel (a b : list SigningStatus) (held : list string) :
  stored sel (a ++ b) held = stored sel b (stored sel a held).
Proof. unfold stored. now rewrite fold_left_app. Qed.

Lemma stored_last sel (a : list SigningStatus) (m : SigningStatus) held :
  stored sel (a ++ [m]) held = sel m.
Proof. now rewrite stored_app. Qed.

Lemma received_app (a b : list Event) :
  received (a ++ b) = received a ++ received b.
Proof. unfold received. now rewrite flat_map_app. Qed.

Lemma received_events (batch : list SigningStatus) :
  received (map SigningStatusEvent batch) = batch.
Proof.
  induction batch as [|m rest IH]; [reflexivity|].
  unfold received in *. simpl. now rewrite IH.
Qed.

(** One iteration of a polling loop. *)
Lemma poll_body_run sel n held (w : World) :
  poll_body sel n held w =
    match schedule w with
    | [] =>
        (Returns held,
         log [GetSigningStatus; UxActionStatus (List.length held) n; Sleep 3000] w)
    | batch :: rest =>
        (Returns (stored sel batch held),
         log ([GetSigningStatus; UxActionStatus (List.length held) n; Sleep 3000]
                ++ map SigningStatusEvent batch)
           (set_schedule rest w))
    end.
Proof.
  destruct w as [sid csid ccs ans nums sched tr].
  destruct sched as [|batch rest]; unfold poll_body, sleep, emit, modify, bind, ret, log;
    simpl; repeat rewrite <- app_assoc; simpl; try rewrite app_nil_r; reflexivity.
Qed.

(** A loop that leaves, leaves with a list that is not short, and that
    list is the one the status events received meanwhile have stored. *)
Lemma poll_loop_result sel n (fuel : nat) :
  forall held w l w',
    while_ fuel (short n) (poll_body sel n) held w = (Returns l, w') ->
    short n l = false /\
    exists events,
      trace w' = trace w ++ events /\
      l = stored sel (received events) held.
Proof.
  induction fuel as [|fuel IH]; intros held w l w'; simpl.
  - destruct (short n held) eqn:Hs; [discriminate|].
    intros [= <- <-]. split; [exact Hs|]. exists []. now rewrite app_nil_r.
  - destruct (short n held) eqn:Hs.
    + unfold bind at 1. rewrite poll_body_run.
      destruct (schedule w) as [|batch rest] eqn:Hsch; intros H;
        apply IH in H; destruct H as (Hl & events & Ht & He); split; auto.
      * exists ([GetSigningStatus; UxActionStatus (List.length held) n; Sleep 3000]
                  ++ events).
        split.
        { rewrite Ht. simpl. rewrite <- app_assoc. reflexivity. }
        rewrite received_app. exact He.
      * exists (([GetSigningStatus; UxActionStatus (List.length held) n; Sleep 3000]
                   ++ map SigningStatusEvent batch) ++ events).
        split.
        { rewrite Ht. simpl. rewrite <- app_assoc. reflexivity. }
        rewrite !received_app, received_events.
        change (received [GetSigningStatus; UxActionStatus (List.length held) n; Sleep 3000])
          with (@nil SigningStatus).
        rewrite app_nil_l, stored_app. exact He.
    + intros [= <- <-]. split; [exact Hs|]. exists []. now rewrite app_nil_r.
Qed.

(** The loop leaves at the end of the first sleep after which the list
    held is no longer short, having run one iteration per sleep. *)
Lemma poll_loop_returns sel n :
  forall pre held w batch post fuel,
    schedule w = pre ++ batch :: post ->
    short n held = true ->
    all_short sel n held pre = true ->
    short n (stored sel batch (held_after sel held pre)) = false ->
    List.length pre < fuel ->
    while_ fuel (short n) (poll_body sel n) held w =
      (Returns (stored sel batch (held_after sel held pre)),
       log (polling sel n held (pre ++ [batch])) (set_schedule post w)).
Proof.
  induction pre as [|b0 pre IH]; intros held w batch post fuel Hsch Hs Hall Hfull Hfuel.
  - destruct fuel as [|fuel]; [simpl in Hfuel; lia|].
    simpl. rewrite Hs. unfold bind at 1. rewrite poll_body_run, Hsch. simpl.
    destruct fuel; simpl in *; rewrite Hfull; unfold ret;
      rewrite app_nil_r; reflexivity.
  - destruct fuel as [|fuel]; [simpl in Hfuel; lia|].
    simpl in Hall. apply andb_prop in Hall. destruct Hall as [Hs1 Hall].
    simpl. rewrite Hs. unfold bind at 1. rewrite poll_body_run, Hsch. simpl.
    rewrite (IH (stored sel b0 held) _ batch post fuel); simpl; auto;
      [|simpl in Hfuel; lia].
    f_equal. rewrite set_schedule_log. 
    destruct w; unfold log, set_schedule; simpl. f_equal.
    repeat rewrite <- app_assoc. reflexivity.
Qed.

Lemma getIdentities_shape (identity : string) (n : Z) :
  MultisigClientSigningSessionManager.getIdentities identity n =
    collector (SubmitSigningIdentity identity)
      "Waiting for Identities from server" msg_identities identity n.
Proof. reflexivity. Qed.

Lemma getSigningCommitments_shape (signingCommitment : string) (n : Z) :
  MultisigClientSigningSessionManager.getSigningCommitments signingCommitment n =
    collector (SubmitSigningCommitment signingCommitment)
      "Waiting for Signing Commitments from server" msg_signingCommitments
      signingCommitment n.
Proof. reflexivity. Qed.

Lemma getSignatureShares_shape (signatureShare : string) (n : Z) :
  MultisigClientSigningSessionManager.getSignatureShares signatureShare n =
    collector (SubmitSignatureShare signatureShare)
      "Waiting for Signature Shares from server" msg_signatureShares
      signatureShare n.
Proof. reflexivity. Qed.

(** Running a collector is running its loop between the three effects
    that precede it and the two that follow it. *)
Lemma collector_run submit label sel v n (w : World) :
  collector submit label sel v n w =
    match while_ (S (List.length (schedule w))) (short n) (poll_body sel n) [v]
            (log [submit; OnSigningStatusOn; UxActionStart label] w) with
    | (Returns l, w') =>
        (Returns l, log [OnSigningStatusClear; UxActionStop] w')
    | (Throws e, w') => (Throws e, w')
    | (Hangs, w') => (Hangs, w')
    end.
Proof.
  unfold collector, poll_fuel, emit, modify, gets, bind, ret.
  rewrite !log_log. simpl app. simpl schedule.
  destruct (while_ _ _ _ _ _) as [[l|e|] w']; try reflexivity.
  now rewrite log_log.
Qed.

(** A collector that returns, returns a list that is not short: the one
    the status events received while it polled have stored. *)
Lemma collector_result submit label sel v n (w : World) l w' :
  collector submit label sel v n w = (Returns l, w') ->
  short n l = false /\
  exists events,
    trace w' = trace w ++ [submit; OnSigningStatusOn; UxActionStart label]
                 ++ events ++ [OnSigningStatusClear; UxActionStop] /\
    l = stored sel (received events) [v].
Proof.
  rewrite collector_run.
  destruct (while_ _ _ _ _ _) as [[l0|e|] w0] eqn:Hw; try discriminate.
  intros [= <- <-]. apply poll_loop_result in Hw.
  destruct Hw as (Hs & events & Ht & Hl). split; [exact Hs|].
  exists events. split; [|exact Hl].
  simpl trace at 1. rewrite Ht. simpl. now rewrite <- !app_assoc.
Qed.

(** A collector returns at the end of the first sleep after which the
    list held is no longer short. *)
Lemma collector_returns submit label sel v n (w : World) pre batch post :
  schedule w = pre ++ batch :: post ->
  short n [v] = true ->
  all_short sel n [v] pre = true ->
  short n (stored sel batch (held_after sel [v] pre)) = false ->
  collector submit label sel v n w =
    (Returns (stored sel batch (held_after sel [v] pre)),
     log ([submit; OnSigningStatusOn; UxActionStart label]
            ++ polling sel n [v] (pre ++ [batch])
            ++ [OnSigningStatusClear; UxActionStop])
       (set_schedule post w)).
Proof.
  intros Hsch Hs Hall Hfull. rewrite collector_run.
  rewrite (poll_loop_returns sel n pre [v] _ batch post); auto.
  - rewrite set_schedule_log, !log_log. reflexivity.
  - rewrite Hsch, length_app. simpl. lia.
Qed.

(** With a target of at most one the loop is not entered. *)
Lemma collector_immediate submit label sel v n (w : World) :
  (n <= 1)%Z ->
  collector submit label sel v n w =
    (Returns [v],
     log [submit; OnSigningStatusOn; UxActionStart label;
          OnSigningStatusClear; UxActionStop] w).
Proof.
  intros Hn. rewrite collector_run.
  assert (Hs : short n [v] = false) by (unfold short; simpl; lia).
  simpl. rewrite Hs. unfold ret. now rewrite log_log.
Qed.

Lemma ends_full_snoc sel n batch :
  ends_full sel n batch = true ->
  exists b0 m, batch = b0 ++ [m] /\ short n (sel m) = false.
Proof.
  unfold ends_full. destruct (rev batch) as [|m r] eqn:Hr; [discriminate|].
  intros H. exists (rev r), m. split.
  - rewrite <- (rev_involutive batch), Hr. reflexivity.
  - now apply negb_true_iff.
Qed.

(** When some sleep ends with a full report there is a first sleep after
    which the list held is no longer short. *)
Lemma first_full sel n :
  forall sched held,
    short n held = true ->
    existsb (ends_full sel n) sched = true ->
    exists pre batch post,
      sched = pre ++ batch :: post /\
      all_short sel n held pre = true /\
      short n (stored sel batch (held_after sel held pre)) = false.
Proof.
  induction sched as [|b rest IH]; intros held Hs Hex; [discriminate|].
  destruct (short n (stored sel b held)) eqn:Hb.
  - simpl in Hex. apply orb_prop in Hex. destruct Hex as [Hex|Hex].
    + apply ends_full_snoc in Hex. destruct Hex as (b0 & m & -> & Hm).
      rewrite stored_last in Hb. congruence.
    + destruct (IH _ Hb Hex) as (pre & batch & post & -> & Hall & Hfull).
      exists (b :: pre), batch, post. repeat split; auto.
      simpl. now rewrite Hb.
  - exists [], b, rest. repeat split; auto.
Qed.

End PollingFacts.

(** ** The round collectors *)

Section CollectorFacts.
Import Session Polling.

Lemma stored_rev sel (r : list SigningStatus) (held : list string) :
  stored sel r held =
    match rev r with
    | [] => held
    | m :: _ => sel m
    end.
Proof.
  induction r as [|x r IH] using rev_ind; [reflexivity|].
  now rewrite stored_last, rev_app_distr.
Qed.

Lemma collector_quorum submit label sel v n (w : World) :
  received [submit] = [] ->
  (2 <= n)%Z ->
  existsb (ends_full sel n) (schedule w) = true ->
  relayed_quorum (collector submit label sel v n) sel n w.
Proof.
  intros Hsub Hn Hex.
  assert (Hs : short n [v] = true) by (unfold short; simpl; lia).
  destruct (first_full sel n _ _ Hs Hex) as (pre & batch & post & Hsch & Hall & Hfull).
  pose proof (collector_returns submit label sel v n w pre batch post
                Hsch Hs Hall Hfull) as Hrun.
  remember (stored sel batch (held_after sel [v] pre)) as l eqn:El.
  clear El Hfull.
  destruct (collector_result _ _ _ _ _ _ _ _ Hrun) as (Hl & events & Ht & He).
  rewrite stored_rev in He.
  destruct (rev (received events)) as [|m r] eqn:Hr.
  - rewrite He in Hl. congruence.
  - eexists l, _, _, (rev r), m. split; [exact Hrun|]. split; [exact Ht|].
    split.
    + change ([submit; OnSigningStatusOn; UxActionStart label]
                ++ events ++ [OnSigningStatusClear; UxActionStop])
        with ([submit] ++ [OnSigningStatusOn; UxActionStart label]
                ++ events ++ [OnSigningStatusClear; UxActionStop]).
      rewrite !received_app, Hsub.
      change (received [OnSigningStatusOn; UxActionStart label])
        with (@nil SigningStatus).
      change (received [OnSigningStatusClear; UxActionStop])
        with (@nil SigningStatus).
      rewrite app_nil_r. simpl.
      rewrite <- (rev_involutive (received events)), Hr. reflexivity.
    + split; [exact He|]. unfold short in Hl. lia.
Qed.

Lemma promptEach_run item :
  forall k (w : World),
    k <= List.length (answers w) ->
    promptEach item k w =
      (Returns (firstn k (answers w)),
       log (repeat (LongPrompt item) k) (set_answers (skipn k (answers w)) w)).
Proof.
  induction k as [|k IH]; intros w Hk.
  - simpl. unfold ret. rewrite log_nil. now destruct w.
  - destruct w as [sid csid ccs ans nums sched tr]. simpl in Hk.
    destruct ans as [|a ans]; [simpl in Hk; lia|].
    cbn [promptEach]. unfold bind at 1.
    unfold longPrompt, emit, modify, bind. simpl.
    rewrite IH by (simpl in *; lia).
    unfold ret, log, set_answers. simpl. now rewrite <- app_assoc.
Qed.

Lemma collectStrings_run item count additional (w : World) :
  (count <= Z.of_nat (List.length (answers w)))%Z ->
  collectStrings item count additional w =
    (Returns (additional ++ firstn (Z.to_nat count) (answers w)),
     log (repeat (LongPrompt item) (Z.to_nat count))
       (set_answers (skipn (Z.to_nat count) (answers w)) w)).
Proof.
  intros Hc. unfold collectStrings, bind.
  rewrite promptEach_run by lia. reflexivity.
Qed.

Lemma collectStrings_quorum item local n (w w0 : World) :
  (2 <= n)%Z ->
  (n - 1 <= Z.of_nat (List.length (answers w)))%Z ->
  answers w0 = answers w ->
  exists l w',
    collectStrings item (n - 1) [local] w0 = (Returns l, w') /\
    l = local :: firstn (Z.to_nat (n - 1)) (answers w) /\
    Z.of_nat (List.length l) = n /\
    nth_error l 0 = Some local.
Proof.
  intros Hn Ha E. rewrite collectStrings_run by (rewrite E; lia).
  rewrite E. eexists _, _. split; [reflexivity|]. split; [reflexivity|].
  split; [|reflexivity].
  simpl. rewrite length_firstn. lia.
Qed.

End CollectorFacts.

Section QuorumClaims.
Import Session Polling.

Lemma emit_then {A} (e : Event) (m : M World A) (w : World) :
  (emit e ;; m) w = m (log [e] w).
Proof. reflexivity. Qed.

(** C1, as amended.  For every target count [N >= 2] and every local
    contribution: in the interactive transport each round collector,
    once the operator has typed [N - 1] values, returns a list of length
    exactly [N] whose element at position 0 is the local contribution; in
    the relayed transport each round collector, when some sleep ends with
    a status event that reports at least [N] contributions, returns the
    list carried by the last status event it has received, a list of
    length at least [N] in the order the relay gives it. *)
Theorem collectors_return_quorum (N : Z) (local accountName : string) (w : World) :
  (2 <= N)%Z ->
  ((N - 1 <= Z.of_nat (List.length (answers w)))%Z ->
   interactive_quorum
     (MultisigSigningSessionManager.getIdentities accountName local N) local N w /\
   interactive_quorum
     (MultisigSigningSessionManager.getSigningCommitments local N) local N w /\
   interactive_quorum
     (MultisigSigningSessionManager.getSignatureShares local N) local N w) /\
  (existsb (ends_full msg_identities N) (schedule w) = true ->
   relayed_quorum
     (MultisigClientSigningSessionManager.getIdentities local N)
     msg_identities N w) /\
  (existsb (ends_full msg_signingCommitments N) (schedule w) = true ->
   relayed_quorum
     (MultisigClientSigningSessionManager.getSigningCommitments local N)
     msg_signingCommitments N w) /\
  (existsb (ends_full msg_signatureShares N) (schedule w) = true ->
   relayed_quorum
     (MultisigClientSigningSessionManager.getSignatureShares local N)
     msg_signatureShares N w).
Proof.
  intros HN. split; [|split; [|split]].
  - intros Ha. unfold interactive_quorum. repeat split.
    + unfold MultisigSigningSessionManager.getIdentities.
      rewrite !emit_then. now apply collectStrings_quorum.
    + unfold MultisigSigningSessionManager.getSigningCommitments.
      rewrite !emit_then. now apply collectStrings_quorum.
    + unfold MultisigSigningSessionManager.getSignatureShares.
      rewrite !emit_then. now apply collectStrings_quorum.
  - intros H. rewrite getIdentities_shape. now apply collector_quorum.
  - intros H. rewrite getSigningCommitments_shape. now apply collector_quorum.
  - intros H. rewrite getSignatureShares_shape. now apply collector_quorum.
Qed.

(** Three signers, an operator who types two identities, and a relay
    whose second report is complete. *)
Lemma collectors_return_quorum_witness :
  let w := Examples.world None ["id_1"; "id_2"] []
             [[Examples.status 3 "ab" ["id_0"]];
              [Examples.status 3 "ab" ["id_0"; "id_1"; "id_2"]]] in
  interactive_quorum
    (MultisigSigningSessionManager.getIdentities "alice" "id_0" 3) "id_0" 3 w /\
  relayed_quorum
    (MultisigClientSigningSessionManager.getIdentities "id_0" 3)
    msg_identities 3 w.
Proof.
  intros w.
  destruct (collectors_return_quorum 3 "id_0" "alice" w ltac:(lia))
    as (Hi & Hr & _).
  split.
  - apply Hi. simpl. lia.
  - apply Hr. reflexivity.
Defined.

(** C1, as stated, fails in the relayed transport: with a target of two,
    a relay that reports three identities, the local one second, makes
    [getIdentities] return a list of length three that starts with a
    peer's identity. *)
Lemma relayed_collector_returns_relay_list :
  let w := Examples.world None [] []
             [[Examples.status 2 "ab" ["id_1"; "id_0"; "id_2"]]] in
  fst (MultisigClientSigningSessionManager.getIdentities "id_0" 2 w)
    = Returns ["id_1"; "id_0"; "id_2"] /\
  ~ (exists l,
       fst (MultisigClientSigningSessionManager.getIdentities "id_0" 2 w)
         = Returns l /\
       Z.of_nat (List.length l) = 2%Z /\
       nth_error l 0 = Some "id_0").
Proof.
  intros w. split; [reflexivity|].
  intros (l & Hl & Hlen & _).
  change (Returns ["id_1"; "id_0"; "id_2"] = Returns l) in Hl.
  injection Hl as <-. discriminate Hlen.
Qed.

(** C9.  In the relayed transport, for every [numSigners <= 1], each
    round collector submits the local contribution and returns at once
    the one-element list that holds it: between subscribing and clearing
    the subscription it issues no status request and does not sleep, and
    it consumes nothing of what the relay would deliver. *)
Theorem relayed_collectors_immediate (numSigners : Z) (local : string) (w : World) :
  (numSigners <= 1)%Z ->
  MultisigClientSigningSessionManager.getIdentities local numSigners w =
    (Returns [local],
     log [SubmitSigningIdentity local; OnSigningStatusOn;
          UxActionStart "Waiting for Identities from server";
          OnSigningStatusClear; UxActionStop] w) /\
  MultisigClientSigningSessionManager.getSigningCommitments local numSigners w =
    (Returns [local],
     log [SubmitSigningCommitment local; OnSigningStatusOn;
          UxActionStart "Waiting for Signing Commitments from server";
          OnSigningStatusClear; UxActionStop] w) /\
  MultisigClientSigningSessionManager.getSignatureShares local numSigners w =
    (Returns [local],
     log [SubmitSignatureShare local; OnSigningStatusOn;
          UxActionStart "Waiting for Signature Shares from server";
          OnSigningStatusClear; UxActionStop] w).
Proof.
  intros Hn. rewrite getIdentities_shape, getSigningCommitments_shape,
    getSignatureShares_shape.
  repeat split; now apply collector_immediate.
Qed.

(** A rejoined session whose relay reports a single signer. *)
Lemma relayed_collectors_immediate_witness :
  let w := Examples.world (Some "session-1") [] []
             [[Examples.status 1 "ab" ["id_0"; "id_1"]]] in
  MultisigClientSigningSessionManager.getIdentities "id_0" 1 w =
    (Returns ["id_0"],
     log [SubmitSigningIdentity "id_0"; OnSigningStatusOn;
          UxActionStart "Waiting for Identities from server";
          OnSigningStatusClear; UxActionStop] w).
Proof.
  intros w.
  exact (proj1 (relayed_collectors_immediate 1 "id_0" w ltac:(lia))).
Defined.

Lemma collector_polls_until_full submit label sel v n (w : World) :
  (2 <= n)%Z ->
  existsb (ends_full sel n) (schedule w) = true ->
  polls_until_full (collector submit label sel v n) submit label sel v n w.
Proof.
  intros Hn Hex.
  assert (Hs : short n [v] = true) by (unfold short; simpl; lia).
  destruct (first_full sel n _ _ Hs Hex) as (pre & batch & post & Hsch & Hall & Hfull).
  exists pre, batch, post. repeat split; auto.
  now apply collector_returns.
Qed.

(** C8, as amended.  In the relayed transport, each round collector
    issues one status request per sleep of three seconds, up to the first
    sleep at whose end the list held reaches the target: once the last
    status event received during a sleep reports a contribution set whose
    size reaches the target, the collector issues no further status
    request, clears the status event subscription and returns.  Under
    the assumption that, for some sleep, the last status event received
    during it reports a size of at least the target, the loop terminates
    (with a target of at most one it is not entered at all). *)
Theorem relayed_polling_stops_when_full (numSigners : Z) (local : string) (w : World) :
  polling_discipline
    (MultisigClientSigningSessionManager.getIdentities local numSigners)
    (SubmitSigningIdentity local) "Waiting for Identities from server"
    msg_identities local numSigners w /\
  polling_discipline
    (MultisigClientSigningSessionManager.getSigningCommitments local numSigners)
    (SubmitSigningCommitment local) "Waiting for Signing Commitments from server"
    msg_signingCommitments local numSigners w /\
  polling_discipline
    (MultisigClientSigningSessionManager.getSignatureShares local numSigners)
    (SubmitSignatureShare local) "Waiting for Signature Shares from server"
    msg_signatureShares local numSigners w.
Proof.
  rewrite getIdentities_shape, getSigningCommitments_shape,
    getSignatureShares_shape.
  unfold polling_discipline.
  repeat split; intros;
    (now apply collector_immediate) || (now apply collector_polls_until_full).
Qed.

(** The scenario of the spec: the local commitment is [c_0] and two
    successive polls report one, then three commitments. *)
Lemma relayed_polling_stops_when_full_witness :
  let w := Examples.world None [] []
             [[Examples.status 3 "ab" ["c_0"]];
              [Examples.status 3 "ab" ["c_0"; "c_1"; "c_2"]];
              [Examples.status 3 "ab" ["c_0"; "c_1"; "c_2"]]] in
  polls_until_full
    (MultisigClientSigningSessionManager.getSigningCommitments "c_0" 3)
    (SubmitSigningCommitment "c_0") "Waiting for Signing Commitments from server"
    msg_signingCommitments "c_0" 3 w.
Proof.
  intros w.
  destruct (relayed_polling_stops_when_full 3 "c_0" w) as (_ & (_ & Hc) & _).
  apply Hc; [lia | reflexivity].
Defined.

(** C8, as stated, fails when a full report is followed, within the same
    sleep, by a shorter one: the collector has received a status event
    that reports two commitments for a target of two, and it issues a
    further status request all the same; and when no later sleep ends
    with a full report it never returns. *)
Lemma relayed_polling_continues_after_full_report :
  let full := Examples.status 2 "ab" ["c_0"; "c_1"] in
  let part := Examples.status 2 "ab" ["c_0"] in
  let run sched :=
    MultisigClientSigningSessionManager.getSigningCommitments "c_0" 2
      (Examples.world None [] [] sched) in
  (exists before after,
     trace (snd (run [[full; part]; [full]])) =
       before ++ SigningStatusEvent full :: after /\
     In GetSigningStatus after) /\
  fst (run [[full; part]]) = Hangs /\
  In (SigningStatusEvent full) (trace (snd (run [[full; part]]))).
Proof.
  intros full part run. split; [|split].
  - exists [SubmitSigningCommitment "c_0"; OnSigningStatusOn;
            UxActionStart "Waiting for Signing Commitments from server";
            GetSigningStatus; UxActionStatus 1 2; Sleep 3000].
    eexists. split; [reflexivity|]. simpl. auto.
  - reflexivity.
  - simpl. auto 10.
Qed.

End QuorumClaims.

(** ** Starting a session *)

Section StartSessionClaims.
Import Session Polling Configuring.
Context {native : Native.Library}.

Lemma inputSigningConfig_run (options : Options) (w : World) n tx :
  resolved_unsignedTransaction options w = Some tx ->
  resolved_numSigners options w = Some n ->
  inputSigningConfig options w =
    (if (n <? 2)%Z
     then Throws (JsError "Minimum number of participants must be at least 2")
     else Returns (n, tx),
     answered options w).
Proof.
  unfold resolved_unsignedTransaction, resolved_numSigners, answered,
    config_prompts, inputSigningConfig.
  destruct options as [on ot]; destruct w as [sid csid ccs ans nums sched tr].
  simpl. intros Ht Hn.
  destruct ot as [t|], on as [m|]; simpl in *.
  - injection Ht as ->. injection Hn as ->.
    unfold bind, ret, throw, log; simpl.
    destruct (n <? 2)%Z; simpl; now rewrite app_nil_r.
  - injection Ht as ->. destruct nums as [|m nums]; [discriminate|].
    injection Hn as ->.
    unfold bind, ret, throw, log, inputNumberPrompt, emit, modify, bind; simpl.
    destruct (n <? 2)%Z; reflexivity.
  - injection Hn as ->. destruct ans as [|a ans]; [discriminate|].
    injection Ht as ->.
    unfold bind, ret, throw, log, longPrompt, emit, modify, bind; simpl.
    destruct (n <? 2)%Z; reflexivity.
  - destruct ans as [|a ans]; [discriminate|]. injection Ht as ->.
    destruct nums as [|m nums]; [discriminate|]. injection Hn as ->.
    unfold bind, ret, throw, log, longPrompt, inputNumberPrompt, emit, modify, bind;
      simpl.
    destruct (n <? 2)%Z; unfold set_numbers, set_answers, log; simpl;
      rewrite <- app_assoc; reflexivity.
Qed.

Lemma config_prompts_are_prompts (options : Options) :
  forallb is_prompt (config_prompts options) = true /\
  forallb (fun e => negb (is_relay_call e)) (config_prompts options) = true.
Proof. destruct options as [[n|] [t|]]; split; reflexivity. Qed.

(** C2, as amended.  For every invocation of [startSession] that
    resolves its configuration locally (the interactive transport, and
    the relayed transport with no known session id) and whose resolved
    [numSigners] is less than 2, the call fails with the configuration
    error; what it has done by then is the prompts for the values the
    options leave out and nothing else: no network connection, no relay
    call, the manager's session id and the relay's pending events
    untouched. *)
Theorem small_config_fails_locally (options : Options) (w : World) (n : Z) (tx : string) :
  resolved_unsignedTransaction options w = Some tx ->
  resolved_numSigners options w = Some n ->
  (n < 2)%Z ->
  MultisigSigningSessionManager.startSession options w =
    (Throws (JsError "Minimum number of participants must be at least 2"),
     answered options w) /\
  (Js.truthy_opt (sessionId w) = false ->
   MultisigClientSigningSessionManager.startSession options w =
     (Throws (JsError "Minimum number of participants must be at least 2"),
      answered options w)) /\
  trace (answered options w) = trace w ++ config_prompts options /\
  forallb is_prompt (config_prompts options) = true /\
  forallb (fun e => negb (is_relay_call e)) (config_prompts options) = true /\
  sessionId (answered options w) = sessionId w /\
  schedule (answered options w) = schedule w.
Proof.
  intros Ht Hn Hlt.
  pose proof (inputSigningConfig_run options w n tx Ht Hn) as Hrun.
  replace (n <? 2)%Z with true in Hrun by (symmetry; apply Z.ltb_lt; lia).
  split; [|split; [|split; [|split; [|split; [|split]]]]].
  - unfold MultisigSigningSessionManager.startSession, bind. now rewrite Hrun.
  - intros Hsid.
    unfold MultisigClientSigningSessionManager.startSession, bind, gets.
    destruct (sessionId w) as [id|] eqn:E; simpl in Hsid.
    + rewrite Hsid. now rewrite Hrun.
    + now rewrite Hrun.
  - unfold answered.
    destruct (opt_unsignedTransaction options), (opt_numSigners options);
      reflexivity.
  - apply config_prompts_are_prompts.
  - apply config_prompts_are_prompts.
  - unfold answered.
    destruct (opt_unsignedTransaction options), (opt_numSigners options);
      reflexivity.
  - unfold answered.
    destruct (opt_unsignedTransaction options), (opt_numSigners options);
      reflexivity.
Qed.

End StartSessionClaims.

(** An operator who supplies the transaction at the prompt and a single
    signer in the options. *)
Lemma small_config_fails_locally_witness :
  let options :=
    {| Session.opt_numSigners := Some 1%Z;
       Session.opt_unsignedTransaction := None |} in
  let w := Examples.world None ["ab"] [] [] in
  MultisigClientSigningSessionManager.startSession
    (native := Examples.toy_native) options w =
    (Throws (JsError "Minimum number of participants must be at least 2"),
     Configuring.answered options w) /\
  Session.trace (Configuring.answered options w) =
    [Session.LongPrompt "Enter the unsigned transaction"].
Proof.
  intros options w.
  destruct (small_config_fails_locally (native := Examples.toy_native)
              options w 1 "ab" eq_refl eq_refl ltac:(lia)) as (_ & Hr & Ht & _).
  split; [apply Hr; reflexivity | exact Ht].
Defined.

(** C2, as stated, fails on a relayed rejoin: with a known session id
    and a relay that reports a single signer, [startSession] joins the
    session, polls the relay and returns that configuration instead of
    failing. *)
Lemma rejoin_accepts_single_signer :
  let options :=
    {| Session.opt_numSigners := None; Session.opt_unsignedTransaction := None |} in
  let w := Examples.world (Some "session-1") [] []
             [[Examples.status 1 "ab" ["id_0"]]] in
  let run :=
    MultisigClientSigningSessionManager.startSession
      (native := Examples.toy_native) options w in
  fst run = Returns (@Session.Build_Config Examples.toy_native 1%Z [xab]) /\
  In (Session.JoinSession "session-1") (Session.trace (snd run)) /\
  In Session.GetSigningStatus (Session.trace (snd run)).
Proof.
  intros options w run. split; [reflexivity|]. simpl. auto 10.
Qed.

Section RejoinClaims.
Import Session Polling Configuring.
Context {native : Native.Library}.

Lemma config_loop_run :
  forall k (st : Z * string * bool) (w : World) b0 m post fuel,
    snd st = true ->
    schedule w = repeat [] k ++ (b0 ++ [m]) :: post ->
    k < fuel ->
    while_ fuel
      (fun '(_, _, waiting) => waiting)
      (fun st =>
         emit GetSigningStatus ;;
         batch <- sleep 3000 ;;
         ret (fold_left
                (fun _ message =>
                   (msg_numSigners message, msg_unsignedTransaction message, false))
                batch st))
      st w =
    (Returns (msg_numSigners m, msg_unsignedTransaction m, false),
     log (config_polling (S k) ++ map SigningStatusEvent (b0 ++ [m]))
       (set_schedule post w)).
Proof.
  induction k as [|k IH]; intros [[a b] c] w b0 m post fuel Hc Hsch Hfuel;
    simpl in Hc; subst c; (destruct fuel as [|fuel]; [lia|]).
  - simpl in Hsch. cbn [while_]. unfold bind at 1.
    unfold emit, sleep, modify, bind, ret. simpl. rewrite Hsch.
    rewrite fold_left_app. simpl.
    destruct fuel; simpl; unfold ret; f_equal;
      destruct w; unfold log, set_schedule; simpl in *; f_equal;
      repeat rewrite <- app_assoc; reflexivity.
  - simpl in Hsch. cbn [while_]. unfold bind at 1.
    unfold emit, sleep, modify, bind, ret. simpl. rewrite Hsch. simpl.
    rewrite (IH _ _ b0 m post fuel) by (simpl; auto; lia).
    f_equal. destruct w; unfold log, set_schedule; simpl in *; f_equal.
    unfold config_polling. simpl.
    repeat rewrite <- app_assoc. reflexivity.
Qed.

Lemma rejoin_run (id : string) (options : Options) (w : World)
    (k : nat) (b0 : list SigningStatus) (m : SigningStatus)
    (post : list (list SigningStatus)) (u : Native.UnsignedTransaction) :
  Js.truthy id = true ->
  sessionId w = Some id ->
  schedule w = repeat [] k ++ (b0 ++ [m]) :: post ->
  Native.UnsignedTransaction_new
    (Js.Buffer_from_hex (msg_unsignedTransaction m)) = inr u ->
  MultisigClientSigningSessionManager.startSession options w =
    (Returns {| numSigners := msg_numSigners m; unsignedTransaction := u |},
     log (rejoin_trace id k (b0 ++ [m])) (set_schedule post w)).
Proof.
  intros Hid Hsid Hsch Hu.
  unfold MultisigClientSigningSessionManager.startSession.
  unfold bind at 1. unfold gets at 1. rewrite Hsid, Hid.
  unfold joinSession. rewrite emit_then.
  unfold MultisigClientSigningSessionManager.getSessionConfig.
  rewrite !emit_then. unfold bind at 1. unfold poll_fuel, gets.
  unfold bind at 1.
  rewrite (config_loop_run k _ _ b0 m post); auto.
  - unfold emit, modify, bind, new_UnsignedTransaction. rewrite Hu.
    unfold ret. f_equal. rewrite !set_schedule_log, !log_log.
    unfold rejoin_trace. f_equal. repeat rewrite <- app_assoc. reflexivity.
  - simpl. rewrite Hsch, length_app, repeat_length. simpl. lia.
Qed.

Lemma rejoin_trace_quiet (id : string) (k : nat) (batch : list SigningStatus) :
  forallb (fun e => negb (creates_or_configures e)) (rejoin_trace id k batch) = true.
Proof.
  unfold rejoin_trace. rewrite !forallb_app. simpl.
  rewrite andb_true_r. apply andb_true_intro. split.
  - induction k as [|k IH]; [reflexivity|].
    unfold config_polling in *. simpl. simpl in IH. exact IH.
  - induction batch as [|x r IH]; [reflexivity|]. exact IH.
Qed.

(** C3.  When a session identifier is already known at [startSession]
    in relayed mode, the manager makes no local configuration step: it
    joins the existing session and returns the configuration carried by
    the relay's status event, whatever the options.  Hence two
    invocations with the same session id against a relay that reports
    the same configuration return identical [numSigners] and
    [unsignedTransaction], and neither starts a session or keeps another
    session id. *)
Theorem rejoin_is_idempotent (id : string) (options1 options2 : Options)
    (w1 w2 : World) (k1 k2 : nat) (b1 b2 : list SigningStatus)
    (m1 m2 : SigningStatus) (post1 post2 : list (list SigningStatus))
    (n : Z) (tx : string) (u : Native.UnsignedTransaction) :
  Js.truthy id = true ->
  sessionId w1 = Some id ->
  sessionId w2 = Some id ->
  schedule w1 = repeat [] k1 ++ (b1 ++ [m1]) :: post1 ->
  schedule w2 = repeat [] k2 ++ (b2 ++ [m2]) :: post2 ->
  msg_numSigners m1 = n /\ msg_unsignedTransaction m1 = tx ->
  msg_numSigners m2 = n /\ msg_unsignedTransaction m2 = tx ->
  Native.UnsignedTransaction_new (Js.Buffer_from_hex tx) = inr u ->
  let config := {| numSigners := n; unsignedTransaction := u |} in
  let after1 := log (rejoin_trace id k1 (b1 ++ [m1])) (set_schedule post1 w1) in
  let after2 := log (rejoin_trace id k2 (b2 ++ [m2])) (set_schedule post2 w2) in
  MultisigClientSigningSessionManager.startSession options1 w1
    = (Returns config, after1) /\
  MultisigClientSigningSessionManager.startSession options2 w2
    = (Returns config, after2) /\
  sessionId after1 = Some id /\
  sessionId after2 = Some id /\
  forallb (fun e => negb (creates_or_configures e))
    (rejoin_trace id k1 (b1 ++ [m1]) ++ rejoin_trace id k2 (b2 ++ [m2])) = true.
Proof.
  intros Hid Hs1 Hs2 Hsch1 Hsch2 [Hn1 Ht1] [Hn2 Ht2] Hu config after1 after2.
  subst config after1 after2.
  split; [|split; [|split; [|split]]].
  - rewrite <- Hn1. apply rejoin_run; auto. now rewrite Ht1.
  - rewrite <- Hn2. apply rejoin_run; auto. now rewrite Ht2.
  - exact Hs1.
  - exact Hs2.
  - rewrite forallb_app, !rejoin_trace_quiet. reflexivity.
Qed.

End RejoinClaims.

(** Two rejoins of the same session: the first call is answered during
    its second sleep, the next one during its first. *)
Lemma rejoin_is_idempotent_witness :
  let options1 :=
    {| Session.opt_numSigners := None; Session.opt_unsignedTransaction := None |} in
  let options2 :=
    {| Session.opt_numSigners := Some 5%Z;
       Session.opt_unsignedTransaction := Some "ff" |} in
  let m1 := Examples.status 3 "ab" ["id_0"] in
  let m2 := Examples.status 3 "ab" ["id_0"; "id_1"] in
  let w1 := Examples.world (Some "session-1") [] [] [[]; [m1]; [m2]] in
  let w2 := Examples.world (Some "session-1") [] [] [[m2]] in
  let config := @Session.Build_Config Examples.toy_native 3%Z [xab] in
  fst (MultisigClientSigningSessionManager.startSession
         (native := Examples.toy_native) options1 w1) = Returns config /\
  fst (MultisigClientSigningSessionManager.startSession
         (native := Examples.toy_native) options2 w2) = Returns config.
Proof.
  intros options1 options2 m1 m2 w1 w2 config.
  destruct (rejoin_is_idempotent (native := Examples.toy_native)
              "session-1" options1 options2 w1 w2 1 0 [] [] m1 m2 [[m2]] []
              3%Z "ab" [xab]
              eq_refl eq_refl eq_refl eq_refl eq_refl
              (conj eq_refl eq_refl) (conj eq_refl eq_refl) eq_refl)
    as (H1 & H2 & _).
  split.
  - now rewrite H1.
  - now rewrite H2.
Defined.

(** ** The RPC routes *)

Section RouteFacts.
Import Rpc.

Lemma CreateParticipantRequest_typed (data : JValue) :
  matches CreateParticipantRequestSchema (Some data) = true <->
  exists request, CreateParticipantRequest_of data = Some request.
Proof.
  unfold CreateParticipantRequest_of, field. simpl.
  destruct data as [| | | |items|fields]; simpl;
    try (split; [discriminate | intros [r H]; discriminate]).
  destruct (lookup "name" fields) as [[| | |s| |]|]; simpl;
    split; try discriminate; try (intros [r H]; discriminate); eauto.
Qed.

Lemma Signers_typed (items : list JValue) :
  forallb (fun x => matches (object_defined [("identity", string_defined)]) (Some x))
    items = true <->
  exists l, Signers_of items = Some l.
Proof.
  induction items as [|x rest IH].
  - simpl. split; eauto.
  - cbn [forallb Signers_of]. rewrite andb_true_iff, IH.
    unfold field. simpl.
    destruct x as [| | | |items|fields]; simpl;
      try (split; [intros [H _]; discriminate | intros [l H]; discriminate]).
    destruct (lookup "identity" fields) as [[| | |s| |]|]; simpl;
      try (split; [intros [H _]; discriminate | intros [l H]; discriminate]).
    split.
    + intros [_ [l ->]]. eauto.
    + intros [l H]. split; [reflexivity|].
      destruct (Signers_of rest); [eauto | discriminate].
Qed.

Lemma CreateSignatureShareRequest_typed (data : JValue) :
  matches CreateSignatureShareRequestSchema (Some data) = true <->
  exists request, CreateSignatureShareRequest_of data = Some request.
Proof.
  unfold CreateSignatureShareRequest_of, field.
  destruct data as [| | | |items|fields];
    try (simpl; split; [discriminate | intros [r H]; discriminate]).
  change (matches CreateSignatureShareRequestSchema (Some (JObject fields)))
    with (matches string_optional (lookup "account" fields)
          && (matches string_defined (lookup "signingPackage" fields)
          && (matches string_defined (lookup "unsignedTransaction" fields)
          && (matches
                (array_defined (object_defined [("identity", string_defined)]))
                (lookup "signers" fields)
          && true)))).
  destruct (lookup "account" fields) as [[| | |a| |]|];
    destruct (lookup "signingPackage" fields) as [[| | |p| |]|];
    destruct (lookup "unsignedTransaction" fields) as [[| | |u| |]|];
    destruct (lookup "signers" fields) as [[| | | |l|]|];
    cbn [matches andb];
    try (split; [discriminate | intros [r H]; discriminate]);
    rewrite andb_true_r, Signers_typed;
    (split; intros [r H];
     [rewrite H; simpl; eauto
     | destruct (Signers_of l); [eauto | discriminate]]).
Qed.

Lemma register_typed {Req Res} (schema : Schema)
    (typed : JValue -> option Req) (handler : Req -> M Node Res)
    (data : JValue) (request : Req) :
  matches schema (Some data) = true ->
  typed data = Some request ->
  register schema typed handler data = handler request.
Proof. intros Hm Ht. unfold register. now rewrite Hm, Ht. Qed.


Context {native : Native.Library}.

Lemma createSignatureShare_run (data : JValue)
    (request : CreateSignatureShareRequest) (n : Node) (w : Wallet.t)
    (acct : Wallet.Account) (keys : Wallet.MultisigKeys)
    (unsigned : Native.UnsignedTransaction) (share : string) :
  CreateSignatureShareRequest_of data = Some request ->
  wallet n = Some w ->
  resolved_account w (account request) = Some acct ->
  Wallet.multisigKeys acct = Some keys ->
  Native.UnsignedTransaction_new
    (Js.Buffer_from_hex (unsignedTransaction request)) = inr unsigned ->
  Native.createSignatureShare
    (Wallet.identity keys) (Wallet.keyPackage keys)
    (signingPackage request)
    (Native.hash unsigned) (Native.publicKeyRandomness unsigned)
    (map signer_identity (signers request)) = inr share ->
  createSignatureShare data n =
    (Returns {| signatureShare := share |},
     {| wallet := wallet n;
        calls := calls n ++ share_calls keys request unsigned |}).
Proof.
  intros Ht Hw Ha Hk Hu Hs.
  unfold createSignatureShare.
  rewrite (register_typed _ _ _ data request);
    [|apply CreateSignatureShareRequest_typed; eauto | exact Ht].
  unfold createSignatureShare_handler, bind, AssertHasRpcContext_wallet,
    getAccount, AssertMultisigSigner, called, modify, new_UnsignedTransaction.
  rewrite Hw, Ha. unfold ret at 1. rewrite Hk. unfold ret at 1. simpl.
  rewrite Hu. unfold ret at 1. simpl. rewrite Hs. unfold ret, share_calls.
  rewrite <- app_assoc. simpl. now rewrite Hw.
Qed.

(** C4.  For every valid createSignatureShare request (well-formed data,
    a resolved account that is a multisig signer, an unsigned transaction
    the library accepts), the response's [signatureShare] is exactly the
    value the library returns for the account's identity and key package,
    the request's signing package, the hash and the public-key randomness
    of the request's unsigned transaction, and the request's signer
    identities in order; these are the only native calls made, so the
    result is not verified; and any other valid request that leads to the
    same six inputs gets the same signature share. *)
Theorem createSignatureShare_is_library_result (data : JValue)
    (request : CreateSignatureShareRequest) (n : Node) (w : Wallet.t)
    (acct : Wallet.Account) (keys : Wallet.MultisigKeys)
    (unsigned : Native.UnsignedTransaction) (share : string) :
  CreateSignatureShareRequest_of data = Some request ->
  wallet n = Some w ->
  resolved_account w (account request) = Some acct ->
  Wallet.multisigKeys acct = Some keys ->
  Native.UnsignedTransaction_new
    (Js.Buffer_from_hex (unsignedTransaction request)) = inr unsigned ->
  Native.createSignatureShare
    (Wallet.identity keys) (Wallet.keyPackage keys)
    (signingPackage request)
    (Native.hash unsigned) (Native.publicKeyRandomness unsigned)
    (map signer_identity (signers request)) = inr share ->
  createSignatureShare data n =
    (Returns {| signatureShare := share |},
     {| wallet := wallet n;
        calls := calls n ++ share_calls keys request unsigned |}) /\
  forall data' request' n' w' acct' keys' unsigned',
    CreateSignatureShareRequest_of data' = Some request' ->
    wallet n' = Some w' ->
    resolved_account w' (account request') = Some acct' ->
    Wallet.multisigKeys acct' = Some keys' ->
    Native.UnsignedTransaction_new
      (Js.Buffer_from_hex (unsignedTransaction request')) = inr unsigned' ->
    Wallet.identity keys' = Wallet.identity keys ->
    Wallet.keyPackage keys' = Wallet.keyPackage keys ->
    signingPackage request' = signingPackage request ->
    Native.hash unsigned' = Native.hash unsigned ->
    Native.publicKeyRandomness unsigned' = Native.publicKeyRandomness unsigned ->
    map signer_identity (signers request') = map signer_identity (signers request) ->
    fst (createSignatureShare data' n') = Returns {| signatureShare := share |}.
Proof.
  intros Ht Hw Ha Hk Hu Hs. split.
  - now apply (createSignatureShare_run data request n w acct keys unsigned share).
  - intros data' request' n' w' acct' keys' unsigned' Ht' Hw' Ha' Hk' Hu'
      Ei Ek Ep Eh Er El.
    rewrite (createSignatureShare_run data' request' n' w' acct' keys' unsigned' share);
      auto.
    now rewrite Ei, Ek, Ep, Eh, Er, El.
Qed.

(** C5.  For every well-formed createSignatureShare request whose
    resolved account does not exist, or exists and is not flagged as a
    multisig signer, the operation fails with an error raised by the node
    itself, and the node is left as it was: no native call has been made
    and the wallet is unchanged. *)
Theorem createSignatureShare_requires_signer (data : JValue)
    (request : CreateSignatureShareRequest) (n : Node) (w : Wallet.t) :
  CreateSignatureShareRequest_of data = Some request ->
  wallet n = Some w ->
  (resolved_account w (account request) = None ->
   createSignatureShare data n =
     (Throws (RpcValidationError "No account found"), n)) /\
  (forall acct,
     resolved_account w (account request) = Some acct ->
     Wallet.multisigKeys acct = None ->
     createSignatureShare data n =
       (Throws (JsError ("Account " ++ Wallet.name acct
                           ++ " is not a multisig signer account")), n)).
Proof.
  intros Ht Hw.
  assert (Hrun : createSignatureShare data n = createSignatureShare_handler request n).
  { unfold createSignatureShare.
    rewrite (register_typed _ _ _ data request); auto.
    apply CreateSignatureShareRequest_typed; eauto. }
  rewrite Hrun.
  unfold createSignatureShare_handler, bind, AssertHasRpcContext_wallet,
    getAccount, AssertMultisigSigner.
  rewrite Hw. split.
  - intros ->. reflexivity.
  - intros acct -> Hk. unfold ret at 1. now rewrite Hk.
Qed.


End RouteFacts.

(** A request for the default account, which is a signer. *)
Lemma createSignatureShare_is_library_result_witness :
  Rpc.createSignatureShare (native := Examples.toy_native)
    (Examples.share_request None) Examples.node0 =
    (Returns {| Rpc.signatureShare := "72aa|kp-alice|sp|ab12|ab12|72aa|72bb" |},
     {| Rpc.wallet := Some Examples.wallet0;
        Rpc.calls :=
          [Rpc.NewUnsignedTransaction [xab; x12];
           Rpc.CreateSignatureShare "72aa" "kp-alice" "sp" [xab; x12] "ab12"
             ["72aa"; "72bb"]] |}).
Proof.
  exact (proj1 (createSignatureShare_is_library_result
                  (native := Examples.toy_native)
                  (Examples.share_request None)
                  {| Rpc.account := None;
                     Rpc.signingPackage := "sp";
                     Rpc.unsignedTransaction := "ab12";
                     Rpc.signers := [{| Rpc.signer_identity := "72aa" |};
                                     {| Rpc.signer_identity := "72bb" |}] |}
                  Examples.node0 Examples.wallet0 Examples.alice
                  {| Wallet.identity := "72aa"; Wallet.keyPackage := "kp-alice" |}
                  [xab; x12] "72aa|kp-alice|sp|ab12|ab12|72aa|72bb"
                  eq_refl eq_refl eq_refl eq_refl eq_refl eq_refl)).
Defined.

(** A request for an account that does not exist, and one for an account
    without multisig keys. *)
Lemma createSignatureShare_requires_signer_witness :
  Rpc.createSignatureShare (native := Examples.toy_native)
    (Examples.share_request (Some "carol")) Examples.node0 =
    (Throws (RpcValidationError "No account found"), Examples.node0) /\
  Rpc.createSignatureShare (native := Examples.toy_native)
    (Examples.share_request (Some "bob")) Examples.node0 =
    (Throws (JsError "Account bob is not a multisig signer account"),
     Examples.node0).
Proof.
  split.
  - exact (proj1 (createSignatureShare_requires_signer
                    (native := Examples.toy_native)
                    (Examples.share_request (Some "carol")) _
                    Examples.node0 Examples.wallet0 eq_refl eq_refl) eq_refl).
  - exact (proj2 (createSignatureShare_requires_signer
                    (native := Examples.toy_native)
                    (Examples.share_request (Some "bob")) _
                    Examples.node0 Examples.wallet0 eq_refl eq_refl)
             Examples.bob eq_refl eq_refl).
Defined.


(** ** The identity creation command *)

Section IdentityCreateFacts.
Import MultisigIdentityCreate.

Variable Server : Type.
Variable client :
  Rpc.CreateParticipantRequest -> M Server Rpc.CreateParticipantResponse.



End IdentityCreateFacts.





(** ** Block headers *)

Section BlockHeaderFacts.
Import Chain.
Context {env : Collaborators}.


Lemma BigInt_or_throw_toString (z : Z) : BigInt_or_throw (Js.toString z) = inr z.
Proof. unfold BigInt_or_throw. now rewrite BigInt_toString. Qed.


End BlockHeaderFacts.


(** ** Fork choice *)

Section ForkFacts.
Import Chain Fork.

Lemma Buffer_compare_refl (a : Js.Buffer) : Buffer_compare a a = 0%Z.
Proof.
  induction a as [|x a IH]; [reflexivity|].
  simpl. now rewrite N.ltb_irrefl.
Qed.

Lemma Buffer_compare_antisym (a : Js.Buffer) :
  forall b, Buffer_compare b a = (- Buffer_compare a b)%Z.
Proof.
  induction a as [|x a IH]; intros [|y b]; try reflexivity.
  simpl. destruct (N.ltb_spec (Byte.to_N x) (Byte.to_N y)),
           (N.ltb_spec (Byte.to_N y) (Byte.to_N x)); try reflexivity; try lia.
  apply IH.
Qed.

Lemma to_N_inj (x y : byte) : Byte.to_N x = Byte.to_N y -> x = y.
Proof.
  intros H. pose proof (Byte.of_to_N x) as Hx. pose proof (Byte.of_to_N y) as Hy.
  rewrite H in Hx. congruence.
Qed.

Lemma Buffer_compare_eq (a : Js.Buffer) :
  forall b, Buffer_compare a b = 0%Z -> a = b.
Proof.
  induction a as [|x a IH]; intros [|y b]; simpl; try discriminate; auto.
  destruct (N.ltb_spec (Byte.to_N x) (Byte.to_N y)) as [|Hxy]; [discriminate|].
  destruct (N.ltb_spec (Byte.to_N y) (Byte.to_N x)) as [|Hyx]; [discriminate|].
  intros Hc. f_equal; [apply to_N_inj; lia | now apply IH].
Qed.

Lemma Buffer_compare_lt_trans (a : Js.Buffer) :
  forall b c,
    (Buffer_compare a b < 0)%Z -> (Buffer_compare b c < 0)%Z ->
    (Buffer_compare a c < 0)%Z.
Proof.
  induction a as [|x a IH]; intros [|y b] [|z c]; simpl; try lia.
  destruct (N.ltb_spec (Byte.to_N x) (Byte.to_N y)),
           (N.ltb_spec (Byte.to_N y) (Byte.to_N x)),
           (N.ltb_spec (Byte.to_N y) (Byte.to_N z)),
           (N.ltb_spec (Byte.to_N z) (Byte.to_N y)),
           (N.ltb_spec (Byte.to_N x) (Byte.to_N z)),
           (N.ltb_spec (Byte.to_N z) (Byte.to_N x));
    try lia.
  apply IH.
Qed.

Context {env : Collaborators}.
Variable toDifficulty : Target -> Z.

Ltac order_cases :=
  repeat match goal with
         | |- context [(?x =? ?y)%Z] => destruct (Z.eqb_spec x y)
         | |- context [(?x >? ?y)%Z] => destruct (Z.gtb_spec x y)
         | |- context [(?x <? ?y)%Z] => destruct (Z.ltb_spec x y)
         | H : context [(?x =? ?y)%Z] |- _ => destruct (Z.eqb_spec x y)
         | H : context [(?x >? ?y)%Z] |- _ => destruct (Z.gtb_spec x y)
         | H : context [(?x <? ?y)%Z] |- _ => destruct (Z.ltb_spec x y)
         end; simpl in *.

(** X1.  [isBlockLater] is a strict order on headers, total up to
    sequence and hash: no header is later than itself, two headers are
    never each later than the other, lateness is transitive, and when
    neither of two headers is later than the other they have the same
    sequence and the same hash. *)
Theorem isBlockLater_strict_total_order :
  (forall a, isBlockLater a a = false) /\
  (forall a b, isBlockLater a b = true -> isBlockLater b a = false) /\
  (forall a b c,
     isBlockLater a b = true -> isBlockLater b c = true ->
     isBlockLater a c = true) /\
  (forall a b,
     isBlockLater a b = false -> isBlockLater b a = false ->
     sequence a = sequence b /\ hash a = hash b).
Proof.
  unfold isBlockLater. split; [|split; [|split]].
  - intros a. rewrite Z.eqb_refl, Buffer_compare_refl. reflexivity.
  - intros a b. rewrite (Buffer_compare_antisym (hash a) (hash b)).
    order_cases; intros; try congruence; try lia.
  - intros a b c.
    pose proof (Buffer_compare_lt_trans (hash a) (hash b) (hash c)).
    order_cases; intros; try congruence; try lia.
  - intros a b. rewrite (Buffer_compare_antisym (hash a) (hash b)).
    pose proof (Buffer_compare_eq (hash a) (hash b)) as Heq.
    order_cases; intros; try congruence; try lia.
    split; [assumption | apply Heq; lia].
Qed.

(** [isBlockHeavier] compares, in this order, work, sequence, difficulty
    and hash. *)
Lemma isBlockHeavier_iff (a b : BlockHeader) :
  isBlockHeavier toDifficulty a b = true <->
  (work a > work b \/
   work a = work b /\
   (sequence a > sequence b \/
    sequence a = sequence b /\
    (toDifficulty (target a) > toDifficulty (target b) \/
     toDifficulty (target a) = toDifficulty (target b) /\
     Buffer_compare (hash a) (hash b) < 0)))%Z.
Proof.
  unfold isBlockHeavier. order_cases; split; intros; try congruence; try lia.
Qed.

(** X2.  [isBlockHeavier] is a strict order on headers, total up to
    work, sequence, difficulty and hash: no header is heavier than
    itself, two headers are never each heavier than the other, heaviness
    is transitive, and when neither of two headers is heavier than the
    other they agree on all four. *)
Theorem isBlockHeavier_strict_total_order :
  (forall a, isBlockHeavier toDifficulty a a = false) /\
  (forall a b,
     isBlockHeavier toDifficulty a b = true ->
     isBlockHeavier toDifficulty b a = false) /\
  (forall a b c,
     isBlockHeavier toDifficulty a b = true ->
     isBlockHeavier toDifficulty b c = true ->
     isBlockHeavier toDifficulty a c = true) /\
  (forall a b,
     isBlockHeavier toDifficulty a b = false ->
     isBlockHeavier toDifficulty b a = false ->
     work a = work b /\ sequence a = sequence b /\
     toDifficulty (target a) = toDifficulty (target b) /\ hash a = hash b).
Proof.
  split; [|split; [|split]].
  - intros a. apply not_true_is_false. rewrite isBlockHeavier_iff.
    rewrite Buffer_compare_refl. lia.
  - intros a b Hab. apply not_true_is_false. revert Hab.
    rewrite !isBlockHeavier_iff.
    rewrite (Buffer_compare_antisym (hash a) (hash b)). lia.
  - intros a b c. rewrite !isBlockHeavier_iff.
    pose proof (Buffer_compare_lt_trans (hash a) (hash b) (hash c)) as Ht.
    intros Hab Hbc.
    destruct (Z_lt_ge_dec (Buffer_compare (hash a) (hash b)) 0) as [Lab|Gab];
      destruct (Z_lt_ge_dec (Buffer_compare (hash b) (hash c)) 0) as [Lbc|Gbc];
      try specialize (Ht Lab Lbc); lia.
  - intros a b Hab Hba.
    apply not_true_iff_false in Hab, Hba. rewrite isBlockHeavier_iff in Hab, Hba.
    rewrite (Buffer_compare_antisym (hash a) (hash b)) in Hba.
    pose proof (Buffer_compare_eq (hash a) (hash b)) as Heq.
    assert (work a = work b) by lia.
    assert (sequence a = sequence b) by lia.
    assert (toDifficulty (target a) = toDifficulty (target b)) by lia.
    repeat split; auto. apply Heq. lia.
Qed.

(** X3.  More work makes a header heavier whatever its sequence,
    difficulty and hash; and between headers of equal work and equal
    difficulty the heavier one is the later one. *)
Theorem isBlockHeavier_work_first_then_later (a b : BlockHeader) :
  ((work a > work b)%Z -> isBlockHeavier toDifficulty a b = true) /\
  ((work a < work b)%Z -> isBlockHeavier toDifficulty a b = false) /\
  (work a = work b ->
   toDifficulty (target a) = toDifficulty (target b) ->
   isBlockHeavier toDifficulty a b = isBlockLater a b).
Proof.
  unfold isBlockHeavier, isBlockLater. repeat split; intros; order_cases;
    try congruence; try lia.
Qed.

End ForkFacts.

(** ** The transaction commitment *)

Section MerkleFacts.
Import Chain Merkle.
Context {env : Collaborators}.

(** The perfect size of a non-empty array is a power of two, at least
    two, that the array fits in. *)
Lemma perfectSize_pow2 (n : nat) :
  1 <= n ->
  exists k, 1 <= k /\ perfectSize n = 2 ^ k /\ n <= 2 ^ k /\
            (2 <= n -> 2 ^ Nat.pred k < n).
Proof.
  intros Hn. unfold perfectSize, pow2_ceil_log2.
  destruct (Nat.eqb_spec n 1) as [->|Hne].
  - exists 1. simpl. repeat split; lia.
  - exists (Nat.log2_up n).
    pose proof (Nat.log2_up_spec n ltac:(lia)) as Hs.
    pose proof (Nat.log2_up_pos n ltac:(lia)).
    repeat split; lia.
Qed.

Lemma land_pow2_pred (k : nat) : Nat.land (2 ^ k) (2 ^ k - 1) = 0.
Proof.
  replace (2 ^ k - 1) with (Nat.ones k) by (rewrite Nat.ones_equiv; lia).
  rewrite Nat.land_ones. apply Nat.Div0.mod_same.
Qed.

Lemma pad_length (size : nat) (hashes : list Js.Buffer) :
  List.length hashes <= size -> List.length (pad size hashes) = size.
Proof.
  intros H. unfold pad. rewrite length_app, repeat_length. lia.
Qed.

(** A level of even length gives a level of half that length. *)
Lemma nextLevel_even (level : nat) :
  forall m (l : list Js.Buffer),
    List.length l = 2 * m ->
    exists nodes, nextLevel level l = inr nodes /\ List.length nodes = m.
Proof.
  induction m as [|m IH]; intros l Hl.
  - destruct l; [|discriminate]. exists []. split; reflexivity.
  - destruct l as [|x [|y rest]]; simpl in Hl; try lia.
    destruct (IH rest ltac:(lia)) as (nodes & Hn & Hlen).
    cbn [nextLevel]. rewrite Hn. eexists. split; [reflexivity|].
    simpl. now rewrite Hlen.
Qed.

(** Levels whose first has a power of two as length reduce to a root. *)
Lemma reduceLevels_pow2 :
  forall k fuel level (l : list Js.Buffer),
    List.length l = 2 ^ k -> k <= fuel ->
    exists root, reduceLevels fuel level l = inr root.
Proof.
  induction k as [|k IH]; intros fuel level l Hl Hf.
  - destruct l as [|x [|y rest]]; simpl in Hl; try lia.
    exists x. destruct fuel; reflexivity.
  - destruct fuel as [|fuel]; [lia|].
    assert (Hlen : List.length l = 2 * 2 ^ k) by (rewrite Hl; simpl; lia).
    destruct (nextLevel_even level (2 ^ k) l Hlen) as (nodes & Hn & Hnl).
    pose proof (Nat.pow_nonzero 2 k ltac:(lia)).
    destruct l as [|x [|y rest]]; simpl in Hlen; try lia.
    cbn [reduceLevels]. rewrite Hn. apply IH; [exact Hnl | lia].
Qed.

(** What a call on a non-empty array amounts to. *)
Lemma transactionMerkleRoot_run (hashes : list Js.Buffer) :
  hashes <> [] ->
  let size := perfectSize (List.length hashes) in
  transactionMerkleRoot hashes =
    (reduceLevels size 0 (pad size hashes), pad size hashes).
Proof.
  intros Hne size. destruct hashes as [|h rest]; [congruence|].
  destruct (perfectSize_pow2 (List.length (h :: rest)) ltac:(simpl; lia))
    as (k & Hk & Hsize & Hfit & _).
  unfold transactionMerkleRoot. fold size.
  assert (Hsz : size = 2 ^ k) by exact Hsize.
  assert (H2 : 2 <= size).
  { rewrite Hsz. destruct k; [lia|]. simpl.
    pose proof (Nat.pow_nonzero 2 k ltac:(lia)). lia. }
  replace (List.length (h :: rest) <=? size)%nat with true
    by (symmetry; apply Nat.leb_le; lia).
  replace (1 <? size)%nat with true by (symmetry; apply Nat.ltb_lt; lia).
  rewrite Hsz at 1 2. rewrite land_pow2_pred. cbn [negb Nat.eqb].
  rewrite pad_length by lia. rewrite Nat.eqb_refl. reflexivity.
Qed.

(** X4.  [transactionMerkleRoot] returns a root for every list of
    hashes: its four assertions hold and no level of the tree is odd.
    The root of the empty list is the hash of the personalization and the
    list is left as it is; a non-empty list is left padded in place with
    null nodes to its perfect size, which is a power of two, at least
    two, at least the length of the list and, from two hashes on, less
    than twice that length. *)
Theorem transactionMerkleRoot_returns (hashes : list Js.Buffer) :
  (exists root, fst (transactionMerkleRoot hashes) = inr root) /\
  transactionMerkleRoot [] =
    (inr (blake3 TRANSACTION_ROOT_PERSONALIZATION), []) /\
  (hashes <> [] ->
   let n := List.length hashes in
   snd (transactionMerkleRoot hashes) =
     hashes ++ repeat NULL_NODE (perfectSize n - n) /\
   List.length (snd (transactionMerkleRoot hashes)) = perfectSize n /\
   (exists k, 1 <= k /\ perfectSize n = 2 ^ k) /\
   n <= perfectSize n /\
   (2 <= n -> perfectSize n < 2 * n)).
Proof.
  split; [|split; [reflexivity|]].
  - destruct hashes as [|h rest]; [eexists; reflexivity|].
    rewrite transactionMerkleRoot_run by discriminate. cbn [fst].
    destruct (perfectSize_pow2 (List.length (h :: rest)) ltac:(simpl; lia))
      as (k & Hk & Hsize & Hfit & _).
    apply (reduceLevels_pow2 k).
    + rewrite pad_length; lia.
    + rewrite Hsize. pose proof (Nat.pow_gt_lin_r 2 k ltac:(lia)). lia.
  - intros Hne n. rewrite transactionMerkleRoot_run by exact Hne. cbn [snd].
    assert (Hn : 1 <= n) by (subst n; destruct hashes; simpl; [congruence | lia]).
    destruct (perfectSize_pow2 n Hn) as (k & Hk & Hsize & Hfit & Hmin).
    repeat split.
    + rewrite pad_length; [reflexivity | fold n; lia].
    + exists k. split; assumption.
    + lia.
    + intros H2. specialize (Hmin H2). rewrite Hsize.
      destruct k; [lia|]. simpl in *. lia.
Qed.

Lemma perfectSize_padded (n j : nat) :
  1 <= n -> n + j <= perfectSize n -> perfectSize (n + j) = perfectSize n.
Proof.
  intros Hn Hj.
  destruct (perfectSize_pow2 n Hn) as (k & Hk & Hsize & Hfit & Hmin).
  destruct (Nat.eq_dec j 0) as [->|Hj0]; [now rewrite Nat.add_0_r|].
  unfold perfectSize at 1.
  destruct (Nat.eqb_spec (n + j) 1) as [E|_]; [lia|].
  unfold pow2_ceil_log2. rewrite Hsize. f_equal.
  apply Nat.log2_up_unique; [lia|]. split; [|lia].
  destruct (Nat.eq_dec n 1) as [->|Hn1].
  - unfold perfectSize in Hsize. simpl in Hsize.
    assert (k = 1) by (apply (Nat.pow_inj_r 2); [lia | now rewrite <- Hsize]).
    subst k. simpl. lia.
  - specialize (Hmin ltac:(lia)). lia.
Qed.

(** X5.  Null nodes at the end of a list, up to its perfect size, do not
    change the root: the list and the list followed by such null nodes
    have the same root and are left as the same padded array.  Hence a
    second call on the array a first call has padded gives the same root
    and leaves the array as it is. *)
Theorem transactionMerkleRoot_padding (hashes : list Js.Buffer) (j : nat) :
  hashes <> [] ->
  List.length hashes + j <= perfectSize (List.length hashes) ->
  transactionMerkleRoot (hashes ++ repeat NULL_NODE j) =
    transactionMerkleRoot hashes /\
  transactionMerkleRoot (snd (transactionMerkleRoot hashes)) =
    transactionMerkleRoot hashes.
Proof.
  intros Hne Hj.
  assert (Hn : 1 <= List.length hashes)
    by (destruct hashes; simpl; [congruence | lia]).
  assert (Hgen : forall i,
            List.length hashes + i <= perfectSize (List.length hashes) ->
            transactionMerkleRoot (hashes ++ repeat NULL_NODE i) =
              transactionMerkleRoot hashes).
  { intros i Hi.
    rewrite (transactionMerkleRoot_run hashes Hne).
    rewrite transactionMerkleRoot_run
      by (destruct hashes; [congruence | discriminate]).
    cbv zeta. rewrite length_app, repeat_length, perfectSize_padded by lia.
    assert (Hpad : pad (perfectSize (List.length hashes))
                     (hashes ++ repeat NULL_NODE i)
                   = pad (perfectSize (List.length hashes)) hashes).
    { unfold pad. rewrite length_app, repeat_length, <- app_assoc, <- repeat_app.
      do 2 f_equal. lia. }
    now rewrite Hpad. }
  split; [now apply Hgen|].
  rewrite (transactionMerkleRoot_run hashes Hne) at 1. cbn [snd]. unfold pad.
  apply Hgen. lia.
Qed.

End MerkleFacts.

(** Three hashes: the fourth leaf is the null node. *)
Lemma transactionMerkleRoot_padding_witness :
  let hashes := [[x01]; [x02]; [x03]] in
  Merkle.transactionMerkleRoot (env := Examples.toy_chain)
    (hashes ++ repeat (Merkle.NULL_NODE (env := Examples.toy_chain)) 1) =
    Merkle.transactionMerkleRoot (env := Examples.toy_chain) hashes.
Proof.
  intros hashes.
  exact (proj1 (transactionMerkleRoot_padding (env := Examples.toy_chain)
                  hashes 1 ltac:(discriminate) ltac:(vm_compute; lia))).
Defined.

(** ** Serialized headers *)

Section HeaderFacts.
Import Chain Fork HeaderData.
Context {env : Collaborators}.














(** X9.  The header that [BlockHeaderSerde.deserialize] builds from the
    serialized form of [h] carries the hash of [h]'s serialized bytes,
    whatever hash [h] itself carries: the round trip keeps the field
    [hash] exactly when it is the hash of the header's own bytes. *)
Theorem serde_roundtrip_recomputes_hash (h h' : BlockHeader) :
  BlockHeaderSerde_deserialize (BlockHeaderSerde_serialize h) = inr h' ->
  asBigInt (target h') = asBigInt (target h) ->
  BlockHashSerde_deserialize (BlockHashSerde_serialize (previousBlockHash h))
    = inr (previousBlockHash h) ->
  GraffitiSerde_deserialize (GraffitiSerde_serialize (graffiti h))
    = inr (graffiti h) ->
  hash h' = computeHash h /\
  (hash h' = hash h <-> hash h = computeHash h).
Proof.
  unfold BlockHeaderSerde_deserialize, BlockHeaderSerde_serialize.
  cbn [s_sequence s_previousBlockHash s_noteCommitment s_transactionCommitment
       s_target s_randomness s_timestamp s_noteSize s_work s_graffiti].
  intros Hd Ht Hp Hg. rewrite Hp, Hg in Hd.
  destruct (Target_new (Js.toString (targetValue (target h)))) as [e|t];
    [discriminate|].
  rewrite BigInt_or_throw_toString in Hd.
  cbn [Js.truthy_opt] in Hd.
  rewrite toString_truthy, BigInt_or_throw_toString in Hd.
  injection Hd as <-.
  unfold new_BlockHeader in *. cbn [hash target] in *.
  match goal with
  | |- context [computeHash ?x] =>
      assert (E : computeHash x = computeHash h)
  end.
  { unfold computeHash, serialize.
    cbn [randomness sequence previousBlockHash noteCommitment
         transactionCommitment target timestamp graffiti getTime].
    now rewrite Ht. }
  rewrite E. split; [reflexivity|]. split; intros H; now symmetry.
Qed.

(** X10.  A serialized header without [work], or with the empty string
    for it, deserializes as the same data with work zero. *)
Theorem deserialize_missing_work (data : SerializedBlockHeader) :
  s_work data = None \/ s_work data = Some EmptyString ->
  BlockHeaderSerde_deserialize data =
    BlockHeaderSerde_deserialize (with_work (Some "0") data).
Proof.
  intros Hw. unfold BlockHeaderSerde_deserialize.
  cbn [with_work s_sequence s_previousBlockHash s_noteCommitment
       s_transactionCommitment s_target s_randomness s_timestamp s_noteSize
       s_work s_graffiti].
  destruct (BlockHashSerde_deserialize (s_previousBlockHash data)); [reflexivity|].
  destruct (Target_new (s_target data)); [reflexivity|].
  destruct (BigInt_or_throw (s_randomness data)); [reflexivity|].
  destruct (GraffitiSerde_deserialize (s_graffiti data)); [reflexivity|].
  destruct Hw as [-> | ->]; reflexivity.
Qed.

End HeaderFacts.


(** The serialized form of a header, with [work] taken out. *)
Lemma deserialize_missing_work_witness :
  Chain.BlockHeaderSerde_deserialize (env := Examples.toy_chain)
    (HeaderData.with_work None (Chain.BlockHeaderSerde_serialize Examples.header0)) =
  Chain.BlockHeaderSerde_deserialize (env := Examples.toy_chain)
    (HeaderData.with_work (Some "0")
       (HeaderData.with_work None
          (Chain.BlockHeaderSerde_serialize Examples.header0))).
Proof.
  exact (deserialize_missing_work (env := Examples.toy_chain)
           (HeaderData.with_work None
              (Chain.BlockHeaderSerde_serialize Examples.header0))
           (or_introl eq_refl)).
Defined.

(** The example header carries a hash that is not the hash of its bytes:
    the round trip replaces it. *)
Lemma serde_roundtrip_recomputes_hash_witness :
  let h' :=
    Chain.new_BlockHeader (env := Examples.toy_chain)
      7 (repeat x11 32) (repeat x22 32) (repeat x33 32)
      (Chain.target Examples.header0)
      (Some 12345%Z) (Some {| Chain.getTime := 1700000000000 |})
      (repeat x44 32) (Some 42%Z) (Some 99%Z) None in
  Chain.hash h' = Chain.computeHash Examples.header0 /\
  (Chain.hash h' = Chain.hash Examples.header0 <->
   Chain.hash Examples.header0 = Chain.computeHash Examples.header0).
Proof.
  intros h'.
  exact (serde_roundtrip_recomputes_hash (env := Examples.toy_chain)
           Examples.header0 h' eq_refl eq_refl eq_refl eq_refl).
Defined.

(** ** Whole runs of the relayed collectors *)

Section RunFacts.
Import Session Polling Runs.


Lemma stored_stays_short sel n (batch : list SigningStatus) (held : list string) :
  short n held = true ->
  ends_full sel n batch = false ->
  short n (stored sel batch held) = true.
Proof.
  intros Hs He. rewrite stored_rev. unfold ends_full in He.
  destruct (rev batch) as [|m r]; [exact Hs|].
  now apply negb_false_iff in He.
Qed.

(** Without a sleep that ends with a full report the loop never leaves. *)
Lemma poll_loop_hangs sel n (fuel : nat) :
  forall held (w : World),
    short n held = true ->
    existsb (ends_full sel n) (schedule w) = false ->
    fst (while_ fuel (short n) (poll_body sel n) held w) = Hangs.
Proof.
  induction fuel as [|fuel IH]; intros held w Hs Hex; simpl; rewrite Hs;
    [reflexivity|].
  unfold bind at 1. rewrite poll_body_run.
  destruct (schedule w) as [|batch rest] eqn:Hsch.
  - apply IH; [exact Hs|]. simpl. now rewrite Hsch.
  - simpl in Hex. apply orb_false_elim in Hex. destruct Hex as [Hb Hr].
    apply IH; [now apply stored_stays_short | exact Hr].
Qed.


Lemma collector_returns_iff_full submit label sel v n (w : World) :
  (2 <= n)%Z ->
  returns_iff_full (collector submit label sel v n) sel n w.
Proof.
  intros Hn.
  assert (Hs : short n [v] = true) by (unfold short; simpl; lia).
  assert (Hhang : existsb (ends_full sel n) (schedule w) = false ->
                  fst (collector submit label sel v n w) = Hangs).
  { intros Hex. rewrite collector_run.
    pose proof (poll_loop_hangs sel n (S (List.length (schedule w))) [v]
                  (log [submit; OnSigningStatusOn; UxActionStart label] w)
                  Hs Hex) as Hh.
    destruct (while_ _ _ _ _ _) as [[l0|e0|] w0]; simpl in Hh;
      try discriminate. reflexivity. }
  split; [split|exact Hhang].
  - intros (l & w' & Hrun).
    destruct (existsb (ends_full sel n) (schedule w)) eqn:Hex; [reflexivity|].
    specialize (Hhang eq_refl). rewrite Hrun in Hhang. discriminate.
  - intros Hex.
    destruct (collector_polls_until_full submit label sel v n w Hn Hex)
      as (pre & batch & post & _ & _ & _ & Hrun).
    eauto.
Qed.


(** X12.  With a target of at least two, a relayed round collector
    returns if and only if some sleep ends with a status event that
    reports at least [numSigners] contributions; when no sleep does, it
    neither returns nor throws: it polls for ever. *)
Theorem relayed_collectors_return_iff_full (numSigners : Z) (local : string) (w : World) :
  (2 <= numSigners)%Z ->
  returns_iff_full
    (MultisigClientSigningSessionManager.getIdentities local numSigners)
    msg_identities numSigners w /\
  returns_iff_full
    (MultisigClientSigningSessionManager.getSigningCommitments local numSigners)
    msg_signingCommitments numSigners w /\
  returns_iff_full
    (MultisigClientSigningSessionManager.getSignatureShares local numSigners)
    msg_signatureShares numSigners w.
Proof.
  intros Hn. rewrite getIdentities_shape, getSigningCommitments_shape,
    getSignatureShares_shape.
  repeat split; try (now apply collector_returns_iff_full).
Qed.

End RunFacts.

(** A relay whose reports stay one short of three signature shares. *)
Lemma relayed_collectors_return_iff_full_witness :
  fst (MultisigClientSigningSessionManager.getSignatureShares "s_0" 3
         (Examples.world None [] []
            [[Examples.status 3 "ab" ["s_0"]];
             [Examples.status 3 "ab" ["s_0"; "s_1"]]])) = Hangs.
Proof.
  destruct (relayed_collectors_return_iff_full 3 "s_0"
              (Examples.world None [] []
                 [[Examples.status 3 "ab" ["s_0"]];
                  [Examples.status 3 "ab" ["s_0"; "s_1"]]])
              ltac:(lia)) as (_ & _ & _ & Hh).
  apply Hh. reflexivity.
Defined.

(** ** Whole runs of [startSession] *)

Section StartSessionRuns.
Import Session Polling Configuring Runs.
Context {native : Native.Library}.

Lemma config_loop_hangs (fuel : nat) :
  forall k (st : Z * string * bool) (w : World),
    snd st = true ->
    schedule w = repeat [] k ->
    fst (while_ fuel
           (fun '(_, _, waiting) => waiting)
           (fun st =>
              emit GetSigningStatus ;;
              batch <- sleep 3000 ;;
              ret (fold_left
                     (fun _ message =>
                        (msg_numSigners message, msg_unsignedTransaction message,
                         false))
                     batch st))
           st w) = Hangs.
Proof.
  induction fuel as [|fuel IH]; intros k [[a b] c] w Hc Hsch;
    simpl in Hc; subst c; [reflexivity|].
  cbn [while_]. unfold bind at 1.
  unfold emit, sleep, modify, bind, ret. simpl. rewrite Hsch.
  destruct k as [|k]; simpl.
  - apply (IH 0); [reflexivity|]. simpl. now rewrite Hsch.
  - apply (IH k); reflexivity.
Qed.

(** X13.  A rejoin (a known session id) to which the relay never
    delivers a status event never settles: [startSession] goes on polling
    and the placeholder configuration of [getSessionConfig], zero signers
    and an empty transaction, is never returned. *)
Theorem rejoin_waits_for_relay (id : string) (options : Options) (w : World) (k : nat) :
  Js.truthy id = true ->
  sessionId w = Some id ->
  schedule w = repeat [] k ->
  fst (MultisigClientSigningSessionManager.startSession options w) = Hangs.
Proof.
  intros Hid Hsid Hsch.
  unfold MultisigClientSigningSessionManager.startSession.
  unfold bind at 1. unfold gets at 1. rewrite Hsid, Hid.
  unfold joinSession. rewrite emit_then.
  unfold MultisigClientSigningSessionManager.getSessionConfig.
  rewrite !emit_then. unfold bind at 1. unfold poll_fuel, gets.
  unfold bind at 1.
  match goal with
  | |- context [while_ ?f ?c ?b ?s ?x] =>
      pose proof (config_loop_hangs f k s x eq_refl Hsch) as Hh;
      destruct (while_ f c b s x) as [[r|e|] w0]
  end; simpl in Hh; try discriminate. reflexivity.
Qed.

(** X14.  When no session id is known and the resolved number of
    signers is at least two, both transports resolve to the same
    configuration, the values of the options taking precedence over the
    operator's replies.  The interactive manager does nothing but the
    configuration prompts; the relayed manager then connects, starts one
    signing session with exactly the resolved values, adopts the session
    id of its client and waits to have joined. *)
Theorem startSession_starts (options : Options) (w : World) (n : Z) (tx : string)
    (u : Native.UnsignedTransaction) :
  resolved_unsignedTransaction options w = Some tx ->
  resolved_numSigners options w = Some n ->
  (2 <= n)%Z ->
  Native.UnsignedTransaction_new (Js.Buffer_from_hex tx) = inr u ->
  MultisigSigningSessionManager.startSession options w =
    (Returns {| numSigners := n; unsignedTransaction := u |},
     answered options w) /\
  (Js.truthy_opt (sessionId w) = false ->
   MultisigClientSigningSessionManager.startSession options w =
     (Returns {| numSigners := n; unsignedTransaction := u |},
      log (start_trace n tx w)
        (set_sessionId (client_sessionId w) (answered options w)))).
Proof.
  intros Ht Hn Hge Hu.
  pose proof (inputSigningConfig_run options w n tx Ht Hn) as Hrun.
  replace (n <? 2)%Z with false in Hrun by (symmetry; apply Z.ltb_ge; lia).
  assert (Hc : client_sessionId (answered options w) = client_sessionId w /\
               client_connectionString (answered options w)
                 = client_connectionString w).
  { unfold answered.
    destruct (opt_unsignedTransaction options), (opt_numSigners options);
      split; reflexivity. }
  destruct Hc as [Hc1 Hc2].
  split.
  - unfold MultisigSigningSessionManager.startSession, bind.
    rewrite Hrun. unfold new_UnsignedTransaction. now rewrite Hu.
  - intros Hsid.
    assert (Hrest :
      ('(numSigners, unsignedTransaction) <- inputSigningConfig options ;;
       connect ;;
       emit (StartSigningSession numSigners unsignedTransaction) ;;
       fresh <- gets client_sessionId ;;
       modify (set_sessionId fresh) ;;
       emit (LoggerInfo
               (Js.nl ++ "Starting new signing session: "
                  ++ MultisigClientSigningSessionManager.show_sessionId fresh
                  ++ Js.nl)) ;;
       waitForJoinedSession ;;
       emit (LoggerInfo (Js.nl ++ "Signing session connection string:")) ;;
       cs <- gets client_connectionString ;;
       emit (LoggerInfo cs) ;;
       tx <- new_UnsignedTransaction (Js.Buffer_from_hex unsignedTransaction) ;;
       ret {| numSigners := numSigners; unsignedTransaction := tx |}) w
      = (Returns {| numSigners := n; unsignedTransaction := u |},
         log (start_trace n tx w)
           (set_sessionId (client_sessionId w) (answered options w)))).
    { unfold bind at 1. rewrite Hrun.
      unfold start_trace. rewrite <- Hc1, <- Hc2.
      generalize (answered options w) as w1. intros w1.
      unfold connect, waitForJoinedSession, emit, modify, gets, bind, ret,
        new_UnsignedTransaction. simpl.
      rewrite Hu. f_equal.
      unfold log, set_sessionId. simpl.
      repeat rewrite <- app_assoc. reflexivity. }
    unfold MultisigClientSigningSessionManager.startSession, bind at 1, gets at 1.
    destruct (sessionId w) as [id|] eqn:E; simpl in Hsid.
    + rewrite Hsid. exact Hrest.
    + exact Hrest.
Qed.

Lemma inputSigningConfig_local (options : Options) (w : World) :
  exists events,
    forallb is_prompt events = true /\
    trace (snd (inputSigningConfig options w)) = trace w ++ events /\
    sessionId (snd (inputSigningConfig options w)) = sessionId w /\
    schedule (snd (inputSigningConfig options w)) = schedule w.
Proof.
  destruct (resolved_unsignedTransaction options w) as [tx|] eqn:Ht.
  - destruct (resolved_numSigners options w) as [n|] eqn:Hn.
    + rewrite (inputSigningConfig_run options w n tx Ht Hn). cbn [snd].
      exists (config_prompts options).
      split; [apply config_prompts_are_prompts|].
      unfold answered.
      destruct (opt_unsignedTransaction options), (opt_numSigners options);
        repeat split; reflexivity.
    + unfold resolved_numSigners in Hn. unfold resolved_unsignedTransaction in Ht.
      destruct options as [on ot]; destruct w as [sid csid ccs ans nums sched tr].
      cbn [opt_numSigners opt_unsignedTransaction numbers answers] in *.
      destruct on as [m|]; [discriminate|].
      destruct nums as [|m nums]; [|discriminate].
      unfold inputSigningConfig, bind, ret, longPrompt, inputNumberPrompt,
        emit, modify, bind, log.
      cbn [opt_numSigners opt_unsignedTransaction].
      destruct ot as [t|].
      * eexists [_]. cbn. repeat split; reflexivity.
      * destruct ans as [|a ans]; [discriminate|].
        eexists [_; _]. cbn. rewrite <- app_assoc. repeat split; reflexivity.
  - unfold resolved_unsignedTransaction in Ht.
    destruct options as [on ot]; destruct w as [sid csid ccs ans nums sched tr].
    cbn [opt_numSigners opt_unsignedTransaction numbers answers] in *.
    destruct ot as [t|]; [discriminate|].
    destruct ans as [|a ans]; [|discriminate].
    unfold inputSigningConfig, bind, ret, longPrompt, emit, modify, bind, log.
    cbn [opt_numSigners opt_unsignedTransaction].
    eexists [_]. cbn. repeat split; reflexivity.
Qed.

(** X15.  Whatever the options and the operator's replies, and whether
    it returns, throws or waits for a reply that never comes, the
    interactive [startSession] does nothing but prompt: it makes no relay
    call, and leaves the manager's session id and the relay's pending
    events untouched. *)
Theorem interactive_startSession_is_local (options : Options) (w : World) :
  exists events,
    forallb is_prompt events = true /\
    forallb (fun e => negb (is_relay_call e)) events = true /\
    trace (snd (MultisigSigningSessionManager.startSession options w))
      = trace w ++ events /\
    sessionId (snd (MultisigSigningSessionManager.startSession options w))
      = sessionId w /\
    schedule (snd (MultisigSigningSessionManager.startSession options w))
      = schedule w.
Proof.
  destruct (inputSigningConfig_local options w) as (events & Hp & Ht & Hs & Hsch).
  exists events.
  assert (Hsnd : snd (MultisigSigningSessionManager.startSession options w)
                 = snd (inputSigningConfig options w)).
  { unfold MultisigSigningSessionManager.startSession, bind.
    destruct (inputSigningConfig options w) as [[[n tx]|e|] w']; try reflexivity.
    unfold new_UnsignedTransaction.
    destruct (Native.UnsignedTransaction_new (Js.Buffer_from_hex tx));
      reflexivity. }
  rewrite Hsnd. repeat split; auto.
  clear - Hp. induction events as [|e r IH]; [reflexivity|].
  simpl in *. apply andb_prop in Hp. destruct Hp as [He Hr].
  rewrite (IH Hr), andb_true_r. destruct e; try discriminate; reflexivity.
Qed.

End StartSessionRuns.

(** A rejoin against a relay that stays silent for three sleeps and for
    ever after. *)
Lemma rejoin_waits_for_relay_witness :
  fst (MultisigClientSigningSessionManager.startSession
         (native := Examples.toy_native)
         {| Session.opt_numSigners := Some 3%Z;
            Session.opt_unsignedTransaction := Some "ab" |}
         (Examples.world (Some "session-1") [] [] [[]; []; []])) = Hangs.
Proof.
  exact (rejoin_waits_for_relay (native := Examples.toy_native)
           "session-1" _ (Examples.world (Some "session-1") [] [] [[]; []; []]) 3
           eq_refl eq_refl eq_refl).
Defined.

(** Three signers given in the options, the transaction typed by the
    operator. *)
Lemma startSession_starts_witness :
  let options :=
    {| Session.opt_numSigners := Some 3%Z;
       Session.opt_unsignedTransaction := None |} in
  let w := Examples.world None ["ab12"] [] [] in
  MultisigClientSigningSessionManager.startSession
    (native := Examples.toy_native) options w =
    (Returns (@Session.Build_Config Examples.toy_native 3%Z [xab; x12]),
     Session.log (Runs.start_trace 3 "ab12" w)
       (Session.set_sessionId (Some "session-1")
          (Configuring.answered options w))).
Proof.
  intros options w.
  exact (proj2 (startSession_starts (native := Examples.toy_native)
                  options w 3%Z "ab12" [xab; x12]
                  eq_refl eq_refl ltac:(lia) eq_refl) eq_refl).
Defined.

(** ** Whole runs of the identity creation command *)

Section RetryFacts.
Import MultisigIdentityCreate Retries.

Variable Server : Type.
Variable client :
  Rpc.CreateParticipantRequest -> M Server Rpc.CreateParticipantResponse.

(** A collision consumes one reply and leads to the next call. *)
Lemma retry_loop_collision (fuel : nat) (name codeMessage typed : string)
    (rest : list string) (s1 : Server) (w : World Server) :
  client {| Rpc.cp_name := name |} (server w) =
    (Throws (RpcRequestError RpcClient.DUPLICATE_ACCOUNT_NAME codeMessage), s1) ->
  answers w = typed :: rest ->
  retry_loop Server client (S fuel) name w =
    retry_loop Server client fuel typed
      {| answers := rest; server := s1;
         trace := trace w ++ [Log EmptyString; Log codeMessage;
                              InputPrompt "Enter a new name for the identity"] |}.
Proof.
  intros Hc Ha. destruct w as [ans srv tr]. simpl in *. subst ans.
  unfold retry_loop. cbn [while_ is_undefined]. unfold bind at 1.
  unfold try_catch, bind, call, ret. simpl. rewrite Hc. simpl.
  unfold inputPrompt, emit, modify, bind. simpl.
  repeat rewrite <- app_assoc. reflexivity.
Qed.

Lemma retry_loop_collisions :
  forall (collisions : list (string * string)) (fuel : nat) (name : string)
         (w : World Server) (rest : list string) (last : string) (sK : Server),
    after_collisions Server client name (server w) collisions = Some (last, sK) ->
    answers w = map snd collisions ++ rest ->
    retry_loop Server client (List.length collisions + fuel) name w =
      retry_loop Server client fuel last
        {| answers := rest; server := sK;
           trace := trace w ++ collision_trace collisions |}.
Proof.
  induction collisions as [|[msg typed] cs IH]; intros fuel name w rest last sK Hc Ha.
  - simpl in Hc. injection Hc as <- <-. destruct w as [ans srv tr].
    simpl in *. subst ans. unfold collision_trace. simpl.
    now rewrite app_nil_r.
  - simpl in Hc, Ha.
    destruct (client {| Rpc.cp_name := name |} (server w)) as [[r|e|] s1] eqn:Hcall;
      try discriminate.
    destruct e as [m|m|m|code m|m]; try discriminate.
    destruct (String.eqb_spec code RpcClient.DUPLICATE_ACCOUNT_NAME) as [->|];
      [|discriminate].
    destruct (String.eqb_spec m msg) as [->|]; [|discriminate].
    simpl in Hc. cbn [List.length Nat.add].
    rewrite (retry_loop_collision _ name msg typed (map snd cs ++ rest) s1 w Hcall Ha).
    rewrite (IH fuel typed
               {| answers := map snd cs ++ rest; server := s1;
                  trace := trace w ++ [Log EmptyString; Log msg;
                                       InputPrompt "Enter a new name for the identity"] |}
               rest last sK Hc eq_refl).
    cbn [trace]. unfold collision_trace. simpl.
    now rewrite <- app_assoc.
Qed.

Lemma start_run (name : string) (w : World Server) :
  Js.truthy name = true ->
  start Server client (Some name) w =
    match retry_loop Server client (S (List.length (answers w))) name
            {| answers := answers w; server := server w;
               trace := trace w ++ [ConnectRpc] |} with
    | (Returns (_, Some r), w') =>
        (Returns tt,
         {| answers := answers w'; server := server w';
            trace := trace w' ++ [Log "Identity:"; Log (Rpc.cp_identity r)] |})
    | (Returns (_, None), w') => (Returns tt, w')
    | (Throws e, w') => (Throws e, w')
    | (Hangs, w') => (Hangs, w')
    end.
Proof.
  intros Hn. unfold start. rewrite Hn.
  unfold bind at 1. unfold ret at 1.
  unfold bind at 1. unfold emit at 1, modify at 1.
  unfold bind at 1. unfold gets at 1. cbn [answers].
  unfold bind at 1. fold (retry_loop Server client (S (List.length (answers w))) name).
  destruct (retry_loop _ _ _ _ _) as [[[nm [r|]]|e|] w']; try reflexivity.
  unfold emit, modify, bind. simpl. now rewrite <- app_assoc.
Qed.

(** X16.  However many times in a row the name collides, the command
    prints the message, asks for another name and calls again under the
    name typed.  The call that does not collide decides: when it succeeds
    the command prints the identity and ends normally, having consumed
    one reply per collision; when it fails with another error the command
    ends with that error; and when it collides too and the operator types
    nothing more, the command waits for ever. *)
Theorem start_retries_until_settled (name : string) (w : World Server)
    (collisions : list (string * string)) (rest : list string)
    (last : string) (sK : Server) :
  Js.truthy name = true ->
  after_collisions Server client name (server w) collisions = Some (last, sK) ->
  answers w = map snd collisions ++ rest ->
  (forall r s',
     client {| Rpc.cp_name := last |} sK = (Returns r, s') ->
     start Server client (Some name) w =
       (Returns tt,
        {| answers := rest; server := s';
           trace := trace w ++ [ConnectRpc] ++ collision_trace collisions
                      ++ [Log "Identity:"; Log (Rpc.cp_identity r)] |})) /\
  (forall e s',
     client {| Rpc.cp_name := last |} sK = (Throws e, s') ->
     (forall codeMessage,
        e <> RpcRequestError RpcClient.DUPLICATE_ACCOUNT_NAME codeMessage) ->
     start Server client (Some name) w =
       (Throws e,
        {| answers := rest; server := s';
           trace := trace w ++ [ConnectRpc] ++ collision_trace collisions |})) /\
  (forall codeMessage s',
     client {| Rpc.cp_name := last |} sK =
       (Throws (RpcRequestError RpcClient.DUPLICATE_ACCOUNT_NAME codeMessage), s') ->
     rest = [] ->
     fst (start Server client (Some name) w) = Hangs).
Proof.
  intros Hn Hc Ha.
  assert (Hloop :
    retry_loop Server client (S (List.length (answers w))) name
      {| answers := answers w; server := server w;
         trace := trace w ++ [ConnectRpc] |}
    = retry_loop Server client (S (List.length rest)) last
        {| answers := rest; server := sK;
           trace := (trace w ++ [ConnectRpc]) ++ collision_trace collisions |}).
  { replace (S (List.length (answers w)))
      with (List.length collisions + S (List.length rest))
      by (rewrite Ha, length_app, length_map; lia).
    now apply (retry_loop_collisions collisions (S (List.length rest)) name
                 {| answers := answers w; server := server w;
                    trace := trace w ++ [ConnectRpc] |} rest last sK). }
  rewrite (start_run name w Hn), Hloop.
  split; [|split].
  - intros r s' Hr. unfold retry_loop. cbn [while_ is_undefined].
    unfold bind at 1. unfold try_catch, bind, call, ret. simpl. rewrite Hr.
    simpl. destruct (List.length rest); simpl;
      repeat rewrite <- app_assoc; reflexivity.
  - intros e s' Hr He. unfold retry_loop. cbn [while_ is_undefined].
    unfold bind at 1. unfold try_catch, bind, call, ret. simpl. rewrite Hr.
    destruct e as [m|m|m|code m|m]; simpl; repeat rewrite <- app_assoc;
      try reflexivity.
    destruct (String.eqb_spec code RpcClient.DUPLICATE_ACCOUNT_NAME) as [->|Hne];
      [now elim (He m) | reflexivity].
  - intros codeMessage s' Hr ->. unfold retry_loop. cbn [while_ is_undefined].
    unfold bind at 1. unfold try_catch, bind, call, ret. simpl. rewrite Hr.
    reflexivity.
Qed.

(** X17.  Without a name in the flags, or with the empty one, the
    command first asks for a name and then proceeds as if the name typed
    had been given in the flags; when the operator types nothing it waits
    at that prompt, without connecting to the node. *)
Theorem start_asks_for_missing_name (w : World Server) :
  (forall name rest,
     answers w = name :: rest ->
     Js.truthy name = true ->
     let asked :=
       {| answers := rest; server := server w;
          trace := trace w ++ [InputPrompt "Enter a name for the identity"] |} in
     start Server client None w = start Server client (Some name) asked /\
     start Server client (Some EmptyString) w
       = start Server client (Some name) asked) /\
  (answers w = [] ->
   start Server client None w =
     (Hangs,
      {| answers := []; server := server w;
         trace := trace w ++ [InputPrompt "Enter a name for the identity"] |}) /\
   start Server client (Some EmptyString) w = start Server client None w).
Proof.
  destruct w as [ans srv tr]. simpl. split.
  - intros name rest -> Hn. unfold start. rewrite Hn. cbn [Js.truthy].
    split; reflexivity.
  - intros ->. split; reflexivity.
Qed.

End RetryFacts.

(** The name collides twice before the operator types a free one. *)
Lemma start_retries_until_settled_witness :
  MultisigIdentityCreate.start Rpc.Node RpcClient.createParticipant
    (Some "taken")
    {| MultisigIdentityCreate.answers := ["busy"; "fresh"; "unused"];
       MultisigIdentityCreate.server := Examples.node1;
       MultisigIdentityCreate.trace := [] |} =
    (Returns tt,
     {| MultisigIdentityCreate.answers := ["unused"];
        MultisigIdentityCreate.server :=
          Rpc.set_wallet
            (Wallet.putSecret "fresh" [x72; x02; xfe] Examples.wallet1)
            Examples.node1;
        MultisigIdentityCreate.trace :=
          [MultisigIdentityCreate.ConnectRpc;
           MultisigIdentityCreate.Log EmptyString;
           MultisigIdentityCreate.Log "Account already exists with the name taken";
           MultisigIdentityCreate.InputPrompt "Enter a new name for the identity";
           MultisigIdentityCreate.Log EmptyString;
           MultisigIdentityCreate.Log "Account already exists with the name busy";
           MultisigIdentityCreate.InputPrompt "Enter a new name for the identity";
           MultisigIdentityCreate.Log "Identity:";
           MultisigIdentityCreate.Log "7202fe"] |}).
Proof.
  exact (proj1 (start_retries_until_settled Rpc.Node RpcClient.createParticipant
                  "taken"
                  {| MultisigIdentityCreate.answers := ["busy"; "fresh"; "unused"];
                     MultisigIdentityCreate.server := Examples.node1;
                     MultisigIdentityCreate.trace := [] |}
                  [("Account already exists with the name taken", "busy");
                   ("Account already exists with the name busy", "fresh")]
                  ["unused"] "fresh" Examples.node1
                  eq_refl eq_refl eq_refl)
           {| Rpc.cp_identity := "7202fe" |}
           (Rpc.set_wallet
              (Wallet.putSecret "fresh" [x72; x02; xfe] Examples.wallet1)
              Examples.node1)
           eq_refl).
Defined.

(** ** Errors and encodings of the routes *)

Section RouteRuns.
Import Rpc.
Context {native : Native.Library}.

(** X18.  In a createSignatureShare request that passes the account
    checks, an unsigned transaction the native constructor refuses ends
    the request with the constructor's error before [createSignatureShare]
    is called, and an error of [createSignatureShare] ends it with that
    error; in both cases the error is passed on as it is. *)
Theorem createSignatureShare_native_errors (data : JValue)
    (request : CreateSignatureShareRequest) (n : Node) (w : Wallet.t)
    (acct : Wallet.Account) (keys : Wallet.MultisigKeys) :
  CreateSignatureShareRequest_of data = Some request ->
  wallet n = Some w ->
  resolved_account w (account request) = Some acct ->
  Wallet.multisigKeys acct = Some keys ->
  (forall e,
     Native.UnsignedTransaction_new
       (Js.Buffer_from_hex (unsignedTransaction request)) = inl e ->
     createSignatureShare data n =
       (Throws e,
        {| wallet := wallet n;
           calls := calls n ++
                    [NewUnsignedTransaction
                       (Js.Buffer_from_hex (unsignedTransaction request))] |})) /\
  (forall unsigned e,
     Native.UnsignedTransaction_new
       (Js.Buffer_from_hex (unsignedTransaction request)) = inr unsigned ->
     Native.createSignatureShare
       (Wallet.identity keys) (Wallet.keyPackage keys)
       (signingPackage request)
       (Native.hash unsigned) (Native.publicKeyRandomness unsigned)
       (map signer_identity (signers request)) = inl e ->
     createSignatureShare data n =
       (Throws e,
        {| wallet := wallet n;
           calls := calls n ++ share_calls keys request unsigned |})).
Proof.
  intros Ht Hw Ha Hk.
  assert (Hrun : createSignatureShare data n = createSignatureShare_handler request n).
  { unfold createSignatureShare.
    rewrite (register_typed _ _ _ data request); auto.
    apply CreateSignatureShareRequest_typed; eauto. }
  rewrite Hrun. split.
  - intros e He.
    unfold createSignatureShare_handler, bind, AssertHasRpcContext_wallet,
      getAccount, AssertMultisigSigner, called, modify, new_UnsignedTransaction.
    rewrite Hw, Ha. unfold ret at 1. rewrite Hk. unfold ret at 1. simpl.
    rewrite He. unfold throw. now rewrite Hw.
  - intros unsigned e Hu He.
    unfold createSignatureShare_handler, bind, AssertHasRpcContext_wallet,
      getAccount, AssertMultisigSigner, called, modify, new_UnsignedTransaction.
    rewrite Hw, Ha. unfold ret at 1. rewrite Hk. unfold ret at 1. simpl.
    rewrite Hu. unfold ret at 1. simpl.
    rewrite He. unfold throw, share_calls. rewrite <- app_assoc. simpl.
    now rewrite Hw.
Qed.

(** X19.  Whenever the createParticipant route returns, the identity
    of its response is a well-formed hexadecimal string, two lower-case
    digits per byte, that decodes to the bytes it was printed from. *)
Theorem createParticipant_identity_is_hex (data : JValue) (n n' : Node)
    (response : CreateParticipantResponse) :
  createParticipant data n = (Returns response, n') ->
  Js.is_hex (cp_identity response) = true /\
  exists identity : Js.Buffer,
    cp_identity response = Js.toString_hex identity /\
    Js.Buffer_from_hex (cp_identity response) = identity /\
    String.length (cp_identity response) = 2 * List.length identity.
Proof.
  unfold createParticipant, register.
  destruct (matches CreateParticipantRequestSchema (Some data)); [|discriminate].
  destruct (CreateParticipantRequest_of data) as [request|]; [|discriminate].
  unfold createParticipant_handler, bind, AssertHasRpcContext_wallet.
  destruct (wallet n) as [w|]; [|discriminate].
  destruct (Wallet.createMultisigSecret (cp_name request) w) as [[id|e|] w'];
    try discriminate.
  unfold ret. intros [= <- <-]. cbn [cp_identity].
  split; [apply toString_hex_is_hex|].
  exists id. repeat split.
  - apply Buffer_from_hex_toString_hex.
  - apply toString_hex_length.
Qed.

End RouteRuns.

(** A request with an empty transaction. *)
Lemma createSignatureShare_native_errors_witness :
  Rpc.createSignatureShare (native := Examples.strict_native)
    (Rpc.JObject
       [("signingPackage", Rpc.JString "sp");
        ("unsignedTransaction", Rpc.JString EmptyString);
        ("signers", Rpc.JArray [])])
    Examples.node0 =
    (Throws (NativeError "invalid transaction"),
     {| Rpc.wallet := Some Examples.wallet0;
        Rpc.calls := [Rpc.NewUnsignedTransaction []] |}).
Proof.
  exact (proj1 (createSignatureShare_native_errors
                  (native := Examples.strict_native)
                  (Rpc.JObject
                     [("signingPackage", Rpc.JString "sp");
                      ("unsignedTransaction", Rpc.JString EmptyString);
                      ("signers", Rpc.JArray [])])
                  {| Rpc.account := None; Rpc.signingPackage := "sp";
                     Rpc.unsignedTransaction := EmptyString;
                     Rpc.signers := [] |}
                  Examples.node0 Examples.wallet0 Examples.alice
                  {| Wallet.identity := "72aa"; Wallet.keyPackage := "kp-alice" |}
                  eq_refl eq_refl eq_refl eq_refl)
           (NativeError "invalid transaction") eq_refl).
Defined.

(** A first participant created on the example node. *)
Lemma createParticipant_identity_is_hex_witness :
  Js.is_hex "7201fe" = true /\
  exists identity : Js.Buffer,
    "7201fe" = Js.toString_hex identity /\
    Js.Buffer_from_hex "7201fe" = identity /\
    String.length "7201fe" = 2 * List.length identity.
Proof.
  exact (createParticipant_identity_is_hex
           (Rpc.JObject [("name", Rpc.JString "fresh")])
           Examples.node0
           (Rpc.set_wallet
              (Wallet.putSecret "fresh" [x72; x01; xfe] Examples.wallet0)
              Examples.node0)
           {| Rpc.cp_identity := "7201fe" |} eq_refl).
Defined.
